(** * esp32-ble-demo: the BLE environmental-sensing GATT server

    A shallow embedding of [ble_environment.py] (class [BLEEnvironment]) and
    [gpio.py] (function [blink]).  The Python object [self], the BLE stack
    behind [self._ble] and the GPIO/timer side of the board are threaded
    explicitly through a small state-and-exception monad; every call that
    leaves the program (a stack primitive, a pin operation, a sleep) is
    appended to a chronological trace. *)

From Stdlib Require Import ZArith Strings.Byte String List Lia.
From stdpp Require Import base decidable countable gmap list.

Local Open Scope Z_scope.

(** ** Python values that occur in event payloads *)

#[global] Instance byte_eq_decision : EqDecision byte := Byte.byte_eq_dec.

#[global] Instance byte_countable : Countable byte :=
  inj_countable Byte.to_N Byte.of_N Byte.of_to_N.

(** The tuples handed to the event callback hold integers (connection
    handles, attribute handles, status codes, address types) and byte strings
    (peer addresses).  Both are hashable, so both can be members of a
    Python [set]. *)
Inductive pyval : Type :=
| VInt (n : Z)
| VBytes (b : list byte).

#[global] Instance pyval_eq_decision : EqDecision pyval.
Proof. solve_decision. Defined.

Definition pyval_to_sum (v : pyval) : Z + list byte :=
  match v with VInt n => inl n | VBytes b => inr b end.

Definition pyval_of_sum (s : Z + list byte) : pyval :=
  match s with inl n => VInt n | inr b => VBytes b end.

#[global] Instance pyval_countable : Countable pyval.
Proof.
  apply (inj_countable' pyval_to_sum pyval_of_sum).
  intros []; reflexivity.
Defined.

(** ** Exceptions and outcomes *)

Inductive exn : Type :=
| KeyError (key : pyval)      (* [set.remove] of an absent element *)
| ValueError.                 (* tuple unpacking with the wrong arity *)

Inductive outcome (A : Type) : Type :=
| Return (a : A)
| Raise (e : exn).
Arguments Return {A} a.
Arguments Raise {A} e.

(** ** The world outside the program *)

(** One entry per call that leaves the program. *)
Inductive effect : Type :=
| GattsWrite (value_handle : Z) (data : list byte)
| GattsRead (value_handle : Z)
| GattsNotify (conn_handle : pyval) (value_handle : Z)
| GattsIndicate (conn_handle : pyval) (value_handle : Z)
| GapAdvertise (interval_us : Z) (adv_data : list byte)
| PinOut (id : Z)
| PinOn (id : Z)
| PinOff (id : Z)
| SleepMs (ms : Z).

#[global] Instance effect_eq_decision : EqDecision effect.
Proof. solve_decision. Defined.

(** The stack keeps one value per attribute handle ([gatts_write] overwrites
    it, [gatts_read] returns it); [trace] lists the effects oldest first. *)
Record world : Type := {
  gatts_db : gmap Z (list byte);
  trace : list effect
}.

(** The fields of a [BLEEnvironment] instance. *)
Record BLEEnvironment : Type := {
  _temp_handle : Z;
  _pressure_handle : Z;
  _humidity_handle : Z;
  _string_handle : Z;
  _connections : gset pyval;
  _payload : list byte
}.

Record state : Type := {
  self : BLEEnvironment;
  ble : world
}.

(** ** The monad: state threading plus Python exceptions.  A raised exception
    keeps the state reached so far. *)

Definition M (A : Type) : Type := state -> outcome A * state.

#[global] Instance M_ret : MRet M := fun A a s => (Return a, s).

#[global] Instance M_bind : MBind M := fun A B f m s =>
  match m s with
  | (Return a, s') => f a s'
  | (Raise e, s') => (Raise e, s')
  end.

Definition raise {A : Type} (e : exn) : M A := fun s => (Raise e, s).

Definition get_self : M BLEEnvironment := fun s => (Return (self s), s).

Definition emit (e : effect) : M unit := fun s =>
  (Return tt,
   {| self := self s;
      ble := {| gatts_db := gatts_db (ble s); trace := trace (ble s) ++ [e] |} |}).

Fixpoint for_each {A : Type} (l : list A) (body : A -> M unit) : M unit :=
  match l with
  | [] => mret tt
  | x :: l' => body x;; for_each l' body
  end.

(** ** Stack and board primitives *)

Definition gatts_write (value_handle : Z) (data : list byte) : M unit := fun s =>
  (Return tt,
   {| self := self s;
      ble := {| gatts_db := <[value_handle := data]> (gatts_db (ble s));
                trace := trace (ble s) ++ [GattsWrite value_handle data] |} |}).

(** An attribute that was never written reads as the empty byte string. *)
Definition gatts_read (value_handle : Z) : M (list byte) := fun s =>
  (Return (default [] (gatts_db (ble s) !! value_handle)),
   {| self := self s;
      ble := {| gatts_db := gatts_db (ble s);
                trace := trace (ble s) ++ [GattsRead value_handle] |} |}).

Definition gatts_notify (conn_handle : pyval) (value_handle : Z) : M unit :=
  emit (GattsNotify conn_handle value_handle).

Definition gatts_indicate (conn_handle : pyval) (value_handle : Z) : M unit :=
  emit (GattsIndicate conn_handle value_handle).

Definition gap_advertise (interval_us : Z) (adv_data : list byte) : M unit :=
  emit (GapAdvertise interval_us adv_data).

(** [Pin(id, Pin.OUT)] yields a pin object, represented by its number. *)
Definition Pin_OUT (id : Z) : M Z := emit (PinOut id);; mret id.
Definition pin_on (p : Z) : M unit := emit (PinOn p).
Definition pin_off (p : Z) : M unit := emit (PinOff p).
Definition sleep_ms (ms : Z) : M unit := emit (SleepMs ms).

(** ** Python built-ins used by the source *)

(** [a, b, c = data] *)
Definition unpack3 (data : list pyval) : M (pyval * pyval * pyval) :=
  match data with
  | [a; b; c] => mret (a, b, c)
  | _ => raise ValueError
  end.

Definition set_connections (c : gset pyval) : M unit := fun s =>
  (Return tt,
   {| self := {| _temp_handle := _temp_handle (self s);
                 _pressure_handle := _pressure_handle (self s);
                 _humidity_handle := _humidity_handle (self s);
                 _string_handle := _string_handle (self s);
                 _connections := c;
                 _payload := _payload (self s) |};
      ble := ble s |}).

(** [self._connections.add(x)] *)
Definition connections_add (x : pyval) : M unit :=
  me ← get_self; set_connections ({[x]} ∪ _connections me).

(** [self._connections.remove(x)]: raises [KeyError] when [x] is absent. *)
Definition connections_remove (x : pyval) : M unit :=
  me ← get_self;
  if decide (x ∈ _connections me)
  then set_connections (_connections me ∖ {[x]})
  else raise (KeyError x).

(** The low eight bits of [z] as a byte. *)
Definition byte_of_Z (z : Z) : byte :=
  match Byte.of_N (Z.to_N (Z.land z 255)) with
  | Some b => b
  | None => x00
  end.

(** [struct.pack("<i", x)]: four bytes, least significant first.  MicroPython
    keeps the low 32 bits of [x] and does not check the range. *)
Definition struct_pack_le_i (x : Z) : list byte :=
  [byte_of_Z x; byte_of_Z (Z.shiftr x 8);
   byte_of_Z (Z.shiftr x 16); byte_of_Z (Z.shiftr x 24)].

(** [int(x)] on an integer argument. *)
Definition int (x : Z) : Z := x.

(** [bytes(s, 'utf-8')] for an ASCII string. *)
Definition bytes_utf8 (s : string) : list byte := list_byte_of_string s.

(** ** gpio.py *)

Definition blink (pin : Z) (delay : Z) : M unit :=
  pin_on pin;;
  sleep_ms delay;;
  pin_off pin;;
  sleep_ms delay.

(** Default value of [blink]'s [delay] argument. *)
Definition blink_default_delay : Z := 500.

(** ** ble_environment.py *)

Definition _IRQ_CENTRAL_CONNECT : Z := 1.
Definition _IRQ_CENTRAL_DISCONNECT : Z := 2.
Definition _IRQ_GATTS_INDICATE_DONE : Z := 20.

Definition _advertise (interval_us : Z) : M unit :=
  me ← get_self; gap_advertise interval_us (_payload me).

(** Default value of [_advertise]'s [interval_us] argument. *)
Definition advertise_default_interval : Z := 500000.

Definition _irq (event : Z) (data : list pyval) : M unit :=
  if event =? _IRQ_CENTRAL_CONNECT then
    '(conn_handle, _, _) ← unpack3 data;
    connections_add conn_handle
  else if event =? _IRQ_CENTRAL_DISCONNECT then
    '(conn_handle, _, _) ← unpack3 data;
    connections_remove conn_handle;;
    _advertise advertise_default_interval
  else if event =? _IRQ_GATTS_INDICATE_DONE then
    '(conn_handle, value_handle, status) ← unpack3 data;
    mret tt
  else mret tt.

(** The loop visits the connection set in the order [elements] lists it;
    Python leaves the iteration order of a set open, and no property below
    depends on it. *)
Definition set_environment_data (temp pressure humidity : Z)
    (notify indicate : bool) : M unit :=
  me ← get_self;
  gatts_write (_temp_handle me) (struct_pack_le_i (int temp));;
  gatts_write (_pressure_handle me) (struct_pack_le_i (int pressure));;
  gatts_write (_humidity_handle me) (struct_pack_le_i (int humidity));;
  if notify || indicate then
    for_each (elements (_connections me)) (fun conn_handle =>
      (if notify then
         gatts_notify conn_handle (_temp_handle me);;
         gatts_notify conn_handle (_pressure_handle me);;
         gatts_notify conn_handle (_humidity_handle me)
       else mret tt);;
      (if indicate then
         gatts_indicate conn_handle (_temp_handle me);;
         gatts_indicate conn_handle (_pressure_handle me);;
         gatts_indicate conn_handle (_humidity_handle me)
       else mret tt))
  else mret tt.

Definition read_act : M unit :=
  me ← get_self;
  value ← gatts_read (_string_handle me);
  (if decide (value = bytes_utf8 "blink") then
     p ← Pin_OUT 23;
     for_each (seq 0 3) (fun _ => blink p blink_default_delay)
   else mret tt);;
  gatts_write (_string_handle me) (struct_pack_le_i 0).

(** The connection set of a state. *)
Definition connections (s : state) : gset pyval := _connections (self s).

(** ** Sample data used to exercise the definitions *)

Definition sample_env : BLEEnvironment :=
  {| _temp_handle := 10;
     _pressure_handle := 12;
     _humidity_handle := 14;
     _string_handle := 16;
     _connections := ∅;
     _payload := [x02; x01; x06] |}.

Definition sample_state : state :=
  {| self := sample_env; ble := {| gatts_db := ∅; trace := [] |} |}.

(** The sample state after a central with handle 1 has connected. *)
Definition connected_state : state :=
  snd (_irq _IRQ_CENTRAL_CONNECT [VInt 1; VInt 0; VBytes [xaa; xbb]] sample_state).

(** ** Replaying central events through the callback *)

(** A connect or disconnect event as the stack delivers it: the connection
    handle with the peer's address type and address. *)
Inductive central_event : Type :=
| Connect (conn_handle addr_type addr : pyval)
| Disconnect (conn_handle addr_type addr : pyval).

Definition deliver (e : central_event) : M unit :=
  match e with
  | Connect h t a => _irq _IRQ_CENTRAL_CONNECT [h; t; a]
  | Disconnect h t a => _irq _IRQ_CENTRAL_DISCONNECT [h; t; a]
  end.

(** Each event is delivered in turn; an exception raised by one invocation
    of the callback is recorded and the next event is still delivered. *)
Fixpoint replay (evs : list central_event) (s : state)
    : list (outcome unit) * state :=
  match evs with
  | [] => ([], s)
  | e :: evs' =>
      let (o, s1) := deliver e s in
      let (os, s2) := replay evs' s1 in
      (o :: os, s2)
  end.

Definition returned (o : outcome unit) : Prop := o = Return tt.

Fixpoint count_connects (h : pyval) (evs : list central_event) : nat :=
  match evs with
  | [] => 0
  | Connect h' _ _ :: evs' =>
      ((if decide (h' = h) then 1 else 0) + count_connects h evs')%nat
  | Disconnect _ _ _ :: evs' => count_connects h evs'
  end.

Fixpoint count_disconnects (h : pyval) (evs : list central_event) : nat :=
  match evs with
  | [] => 0
  | Connect _ _ _ :: evs' => count_disconnects h evs'
  | Disconnect h' _ _ :: evs' =>
      ((if decide (h' = h) then 1 else 0) + count_disconnects h evs')%nat
  end.

(** Whether the most recent event in [evs] that names [h] is a connect;
    [before] is the answer when [evs] does not name [h]. *)
Fixpoint last_is_connect (h : pyval) (before : bool) (evs : list central_event)
    : bool :=
  match evs with
  | [] => before
  | Connect h' _ _ :: evs' =>
      last_is_connect h (if decide (h' = h) then true else before) evs'
  | Disconnect h' _ _ :: evs' =>
      last_is_connect h (if decide (h' = h) then false else before) evs'
  end.

(** The events of a well-behaved link layer: for every handle, connects and
    disconnects alternate, starting with a connect.  [seen] holds the events
    already delivered. *)
Fixpoint alternating_after (seen evs : list central_event) : bool :=
  match evs with
  | [] => true
  | Connect h t a :: evs' =>
      (count_connects h seen =? count_disconnects h seen)%nat
      && alternating_after (seen ++ [Connect h t a]) evs'
  | Disconnect h t a :: evs' =>
      (count_connects h seen =? S (count_disconnects h seen))%nat
      && alternating_after (seen ++ [Disconnect h t a]) evs'
  end.

Definition alternating (evs : list central_event) : bool :=
  alternating_after [] evs.

(** No disconnect in [evs] is stray: each one names a handle whose most
    recent earlier event is a connect.  [seen] holds the events already
    delivered. *)
Fixpoint no_stray_disconnect (seen evs : list central_event) : bool :=
  match evs with
  | [] => true
  | Connect h t a :: evs' => no_stray_disconnect (seen ++ [Connect h t a]) evs'
  | Disconnect h t a :: evs' =>
      last_is_connect h false seen
      && no_stray_disconnect (seen ++ [Disconnect h t a]) evs'
  end.

(** What each delivery is expected to yield: a connect returns; a disconnect
    returns when the most recent earlier event naming its handle is a
    connect, and raises KeyError for that handle otherwise.  [seen] holds the
    events already delivered. *)
Fixpoint expected_outcomes (seen evs : list central_event)
    : list (outcome unit) :=
  match evs with
  | [] => []
  | Connect h t a :: evs' =>
      Return tt :: expected_outcomes (seen ++ [Connect h t a]) evs'
  | Disconnect h t a :: evs' =>
      (if last_is_connect h false seen then Return tt else Raise (KeyError h))
      :: expected_outcomes (seen ++ [Disconnect h t a]) evs'
  end.

(** The invariant kept along an alternating sequence: a tracked handle has
    seen one more connect than disconnects, an untracked one as many. *)
Definition counts_agree (seen : list central_event) (s : state) : Prop :=
  forall h,
    (h ∈ connections s -> count_connects h seen = S (count_disconnects h seen)) /\
    (h ∉ connections s -> count_connects h seen = count_disconnects h seen).

(** ** Observing what a run did *)

(** [s] with the effects [es] appended to its trace. *)
Definition log (es : list effect) (s : state) : state :=
  {| self := self s;
     ble := {| gatts_db := gatts_db (ble s); trace := trace (ble s) ++ es |} |}.

(** The effects performed by running [m] from [s]: what the run added to the
    trace. *)
Definition effects_of {A : Type} (m : M A) (s : state) : list effect :=
  drop (length (trace (ble s))) (trace (ble (snd (m s)))).

Definition is_notify (e : effect) : bool :=
  match e with GattsNotify _ _ => true | _ => false end.

Definition is_indicate (e : effect) : bool :=
  match e with GattsIndicate _ _ => true | _ => false end.

(** Whether [e] is a notify or indicate call addressed to connection [c]. *)
Definition sent_to (c : pyval) (e : effect) : bool :=
  match e with
  | GattsNotify c' _ | GattsIndicate c' _ => bool_decide (c' = c)
  | _ => false
  end.

(** The stack calls one pass of the loop body of [set_environment_data]
    makes for connection [c]. *)
Definition fanout (me : BLEEnvironment) (notify indicate : bool) (c : pyval)
    : list effect :=
  (if notify then
     [GattsNotify c (_temp_handle me);
      GattsNotify c (_pressure_handle me);
      GattsNotify c (_humidity_handle me)]
   else []) ++
  (if indicate then
     [GattsIndicate c (_temp_handle me);
      GattsIndicate c (_pressure_handle me);
      GattsIndicate c (_humidity_handle me)]
   else []).

(** The four attribute handles captured at registration. *)
Definition handles (me : BLEEnvironment) : Z * Z * Z * Z :=
  (_temp_handle me, _pressure_handle me, _humidity_handle me, _string_handle me).

(** The effects of one call of [blink] on pin [p] with the default delay. *)
Definition pulse (p : Z) : list effect :=
  [PinOn p; SleepMs blink_default_delay; PinOff p; SleepMs blink_default_delay].

(** The sample state after a peer has written [text] to the command
    characteristic. *)
Definition command_state (text : string) : state :=
  {| self := sample_env;
     ble := {| gatts_db := {[ _string_handle sample_env := bytes_utf8 text ]};
               trace := [] |} |}.

(** ** The wire encoding, as the specification words it *)

(** The numeric value of a byte. *)
Definition Z_of_byte (b : byte) : Z := Z.of_N (Byte.to_N b).

(** The unsigned 32-bit number that represents [v] in two's complement. *)
Definition twos_complement_32 (v : Z) : Z :=
  if v <? 0 then v + 2 ^ 32 else v.

(** The byte values of the 4-byte little-endian two's-complement encoding
    of [v]: the base-256 digits of its representative, least significant
    first. *)
Definition le_i32_byte_values (v : Z) : list Z :=
  let u := twos_complement_32 v in
  [u mod 256; (u / 256) mod 256; (u / 65536) mod 256; (u / 16777216) mod 256].

(** [int.from_bytes(bs, 'little', signed=True)] *)
Definition int_from_bytes_le_signed (bs : list byte) : Z :=
  let u := fold_right (fun b acc => Z_of_byte b + 256 * acc) 0 bs in
  let bits := 8 * Z.of_nat (length bs) in
  if u <? 2 ^ (bits - 1) then u else u - 2 ^ bits.

(** Reading attribute [value_handle] in state [s] yields the encoding of [v]. *)
Definition reads_back_as (s : state) (value_handle : Z) (v : Z) : Prop :=
  exists bs : list byte,
    fst (gatts_read value_handle s) = Return bs /\
    length bs = 4%nat /\
    map Z_of_byte bs = le_i32_byte_values v /\
    int_from_bytes_le_signed bs = v.

(** ** The end-to-end scenario: connect, publish with notify, disconnect *)

Definition scenario : M unit :=
  _irq _IRQ_CENTRAL_CONNECT [VInt 1; VInt 0; VBytes [xaa; xbb]];;
  set_environment_data 21 101325 45 true false;;
  _irq _IRQ_CENTRAL_DISCONNECT [VInt 1; VInt 0; VBytes [xaa; xbb]].

(** ** The service definition and construction *)

(** The permission flags of the [bluetooth] module; a characteristic carries
    the flags that its definition joins with [|]. *)
Inductive flag : Type :=
| FLAG_READ
| FLAG_WRITE
| FLAG_NOTIFY
| FLAG_INDICATE.

#[global] Instance flag_eq_decision : EqDecision flag.
Proof. solve_decision. Defined.

(** A characteristic is a 16-bit UUID with its flags, a service a UUID with
    its characteristics in registration order. *)
Definition characteristic : Type := Z * list flag.
Definition service : Type := Z * list characteristic.

Definition _ENV_SENSE_UUID : Z := 0x181A.
Definition _TEMP_CHAR : characteristic :=
  (0x2A6E, [FLAG_READ; FLAG_NOTIFY; FLAG_INDICATE]).
Definition _PRESSURE_CHAR : characteristic :=
  (0x2A6D, [FLAG_READ; FLAG_NOTIFY; FLAG_INDICATE]).
Definition _HUMIDITY_CHAR : characteristic :=
  (0x2A6F, [FLAG_READ; FLAG_NOTIFY; FLAG_INDICATE]).
Definition _STRING_CHAR : characteristic :=
  (0x2A3D, [FLAG_READ; FLAG_WRITE]).
Definition _ENV_SENSE_SERVICE : service :=
  (_ENV_SENSE_UUID, [_TEMP_CHAR; _PRESSURE_CHAR; _HUMIDITY_CHAR; _STRING_CHAR]).

Definition _ADV_APPEARANCE_GENERIC_ENVIRONMENTAL_SENSOR : Z := 5696.

(** Default value of [__init__]'s [name] argument. *)
Definition default_name : string := "esp32-ble-demo".

(** The calls [__init__] makes on the stack before it advertises. *)
Inductive setup_call : Type :=
| BleActive (on : bool)
| BleIrq
| GattsRegisterServices (services : list service).

(** [BLEEnvironment.__init__].  [advertising_payload] is the payload builder
    of the [ble_advertising] module and [registered] is what
    [gatts_register_services] returns: one tuple of value handles per
    service.  The result lists the setup calls made and gives either the
    state with the new object or the exception that aborted construction. *)
Definition __init__
    (advertising_payload : string -> list Z -> Z -> list byte)
    (registered : list (list Z)) (name : string) (w : world)
    : list setup_call * outcome state :=
  let calls :=
    [BleActive true; BleIrq; GattsRegisterServices [_ENV_SENSE_SERVICE]] in
  match registered with
  | [[temp_handle; pressure_handle; humidity_handle; string_handle]] =>
      let me :=
        {| _temp_handle := temp_handle;
           _pressure_handle := pressure_handle;
           _humidity_handle := humidity_handle;
           _string_handle := string_handle;
           _connections := ∅;
           _payload :=
             advertising_payload name [_ENV_SENSE_UUID]
               _ADV_APPEARANCE_GENERIC_ENVIRONMENTAL_SENSOR |} in
      (calls,
       match _advertise advertise_default_interval {| self := me; ble := w |} with
       | (Return _, s) => Return s
       | (Raise e, _) => Raise e
       end)
  | _ => (calls, Raise ValueError)
  end.

(** ** Sequences of operations on one server *)

Inductive op : Type :=
| OpIrq (event : Z) (data : list pyval)
| OpPublish (temp pressure humidity : Z) (notify indicate : bool)
| OpReadAct.

Definition run_op (o : op) : M unit :=
  match o with
  | OpIrq event data => _irq event data
  | OpPublish temp pressure humidity notify indicate =>
      set_environment_data temp pressure humidity notify indicate
  | OpReadAct => read_act
  end.

(** The operations are run in turn; an exception raised by one of them is
    recorded and the next one is still run. *)
Fixpoint run_ops (ops : list op) (s : state) : list (outcome unit) * state :=
  match ops with
  | [] => ([], s)
  | o :: ops' =>
      let (r, s1) := run_op o s in
      let (rs, s2) := run_ops ops' s1 in
      (r :: rs, s2)
  end.

(** ** More observations on traces *)

Definition is_advertise (e : effect) : bool :=
  match e with GapAdvertise _ _ => true | _ => false end.

Definition is_write (e : effect) : bool :=
  match e with GattsWrite _ _ => true | _ => false end.

(** The time spent in [sleep_ms], in milliseconds. *)
Fixpoint slept (es : list effect) : Z :=
  match es with
  | [] => 0
  | SleepMs ms :: es' => ms + slept es'
  | _ :: es' => slept es'
  end.

(** The level pin [p] is left at: [Some true] after [on], [Some false] after
    [off], [before] when the effects do not drive the pin. *)
Fixpoint pin_level (p : Z) (before : option bool) (es : list effect)
    : option bool :=
  match es with
  | [] => before
  | PinOn q :: es' => pin_level p (if decide (q = p) then Some true else before) es'
  | PinOff q :: es' => pin_level p (if decide (q = p) then Some false else before) es'
  | _ :: es' => pin_level p before es'
  end.

(** Whether running [o] with result [r] re-armed advertising: only a
    disconnect event that returned normally does. *)
Definition rearms (o : op) (r : outcome unit) : bool :=
  match o, r with
  | OpIrq event _, Return _ => event =? _IRQ_CENTRAL_DISCONNECT
  | _, _ => false
  end.

Fixpoint count_rearms (ops : list op) (rs : list (outcome unit)) : nat :=
  match ops, rs with
  | o :: ops', r :: rs' =>
      ((if rearms o r then 1 else 0) + count_rearms ops' rs')%nat
  | _, _ => 0%nat
  end.

(** * Properties *)

(** ** Running the monad *)

Lemma bind_run {A B : Type} (m : M A) (f : A -> M B) (s : state) :
  (m ≫= f) s =
  match m s with
  | (Return a, s') => f a s'
  | (Raise e, s') => (Raise e, s')
  end.
Proof. reflexivity. Qed.

Lemma state_eta (s : state) : {| self := self s; ble := ble s |} = s.
Proof. destruct s; reflexivity. Qed.

Lemma env_eta (me : BLEEnvironment) :
  {| _temp_handle := _temp_handle me;
     _pressure_handle := _pressure_handle me;
     _humidity_handle := _humidity_handle me;
     _string_handle := _string_handle me;
     _connections := _connections me;
     _payload := _payload me |} = me.
Proof. destruct me; reflexivity. Qed.

(** A connect event with a three-element payload adds the handle. *)
Lemma irq_connect (h a b : pyval) (s : state) :
  _irq _IRQ_CENTRAL_CONNECT [h; a; b] s =
  set_connections ({[h]} ∪ _connections (self s)) s.
Proof. reflexivity. Qed.

(** A disconnect event for a tracked handle removes it and then advertises. *)
Lemma irq_disconnect_present (h a b : pyval) (s : state) :
  h ∈ _connections (self s) ->
  _irq _IRQ_CENTRAL_DISCONNECT [h; a; b] s =
  (set_connections (_connections (self s) ∖ {[h]});;
   _advertise advertise_default_interval) s.
Proof.
  intros Hin. unfold _irq. simpl.
  unfold connections_remove. rewrite !bind_run. simpl.
  rewrite !bind_run. simpl.
  destruct (decide (h ∈ _connections (self s))) as [_|Hn]; [reflexivity|contradiction].
Qed.

(** A disconnect event for an untracked handle raises and changes nothing. *)
Lemma irq_disconnect_absent (h a b : pyval) (s : state) :
  h ∉ _connections (self s) ->
  _irq _IRQ_CENTRAL_DISCONNECT [h; a; b] s = (Raise (KeyError h), s).
Proof.
  intros Hin. unfold _irq. simpl.
  unfold connections_remove. rewrite !bind_run. simpl.
  rewrite !bind_run. simpl.
  destruct (decide (h ∈ _connections (self s))) as [Hn|_]; [contradiction|reflexivity].
Qed.

(** ** The event callback *)

(** C9: an event whose kind is none of connect, disconnect and indicate-done
    is ignored whatever its payload (the state is unchanged and nothing is
    raised); an indicate-done event with payload
    (conn_handle, value_handle, status) changes nothing and raises nothing,
    for every status value. *)
Theorem irq_unknown_and_indicate_done_inert
    (event : Z) (data : list pyval) (conn_handle value_handle status : pyval)
    (s : state) :
  (event <> _IRQ_CENTRAL_CONNECT ->
   event <> _IRQ_CENTRAL_DISCONNECT ->
   event <> _IRQ_GATTS_INDICATE_DONE ->
   _irq event data s = (Return tt, s)) /\
  _irq _IRQ_GATTS_INDICATE_DONE [conn_handle; value_handle; status] s
    = (Return tt, s).
Proof.
  split; [|reflexivity].
  intros H1 H2 H3. unfold _irq.
  destruct (Z.eqb_spec event _IRQ_CENTRAL_CONNECT); [contradiction|].
  destruct (Z.eqb_spec event _IRQ_CENTRAL_DISCONNECT); [contradiction|].
  destruct (Z.eqb_spec event _IRQ_GATTS_INDICATE_DONE); [contradiction|].
  reflexivity.
Qed.

Lemma irq_unknown_and_indicate_done_inert_witness :
  _irq 3 [VInt 0; VInt 1; VBytes [x00]] sample_state = (Return tt, sample_state) /\
  _irq _IRQ_GATTS_INDICATE_DONE [VInt 0; VInt 12; VInt 255] sample_state
    = (Return tt, sample_state).
Proof.
  pose proof (irq_unknown_and_indicate_done_inert 3 [VInt 0; VInt 1; VBytes [x00]]
                (VInt 0) (VInt 12) (VInt 255) sample_state) as [H1 H2].
  split; [apply H1; discriminate | exact H2].
Defined.

(** C8: a connect event for a handle that is already tracked returns
    normally and leaves the whole state, hence the connection set, as it was;
    the connection set holds no handle twice. *)
Theorem irq_connect_idempotent (h addr_type addr : pyval) (s : state) :
  h ∈ connections s ->
  _irq _IRQ_CENTRAL_CONNECT [h; addr_type; addr] s = (Return tt, s) /\
  NoDup (elements (connections (snd (_irq _IRQ_CENTRAL_CONNECT [h; addr_type; addr] s)))).
Proof.
  intros Hin. split; [|apply NoDup_elements].
  rewrite irq_connect. unfold set_connections, connections in *.
  replace ({[h]} ∪ _connections (self s)) with (_connections (self s))
    by (symmetry; apply subseteq_union_1_L; set_solver).
  rewrite env_eta, state_eta. reflexivity.
Qed.

Lemma connected_state_tracks_1 : VInt 1 ∈ connections connected_state.
Proof. unfold connected_state, connections. simpl. set_solver. Qed.

Lemma irq_connect_idempotent_witness :
  (VInt 1 ∈ connections connected_state) /\
  _irq _IRQ_CENTRAL_CONNECT [VInt 1; VInt 0; VBytes []] connected_state
    = (Return tt, connected_state).
Proof.
  split; [exact connected_state_tracks_1|].
  exact (proj1 (irq_connect_idempotent (VInt 1) (VInt 0) (VBytes [])
                  connected_state connected_state_tracks_1)).
Defined.

(** C2, as stated, fails: with no connection tracked, a disconnect event
    for handle 7 raises KeyError and leaves the trace as it was, so the
    advertise operation is not invoked. *)
Lemma irq_disconnect_absent_counterexample :
  (VInt 7 ∉ connections sample_state) /\
  _irq _IRQ_CENTRAL_DISCONNECT [VInt 7; VInt 0; VBytes []] sample_state
    = (Raise (KeyError (VInt 7)), sample_state) /\
  ~ (exists s', _irq _IRQ_CENTRAL_DISCONNECT [VInt 7; VInt 0; VBytes []] sample_state
                  = (Return tt, s')).
Proof.
  assert (Habs : VInt 7 ∉ connections sample_state)
    by (unfold connections; simpl; set_solver).
  pose proof (irq_disconnect_absent (VInt 7) (VInt 0) (VBytes []) sample_state Habs) as E.
  split; [exact Habs|]. split; [exact E|].
  intros [s' Hs']. rewrite E in Hs'. discriminate.
Qed.

(** C2, amended: a disconnect event for a handle that is not tracked leaves
    the connection set (indeed the whole state) unchanged, but it raises
    KeyError and does not reach the advertise call; for a tracked handle the
    callback returns normally, removes the handle and re-arms advertising
    with the stored payload at the default interval. *)
Theorem irq_disconnect_behaviour (h addr_type addr : pyval) (s : state) :
  (h ∉ connections s ->
   _irq _IRQ_CENTRAL_DISCONNECT [h; addr_type; addr] s = (Raise (KeyError h), s)) /\
  (h ∈ connections s ->
   exists s',
     _irq _IRQ_CENTRAL_DISCONNECT [h; addr_type; addr] s = (Return tt, s') /\
     (connections s' = connections s ∖ {[h]}) /\
     gatts_db (ble s') = gatts_db (ble s) /\
     trace (ble s') =
       trace (ble s) ++ [GapAdvertise advertise_default_interval (_payload (self s))]).
Proof.
  split; intros Hin.
  - apply irq_disconnect_absent. exact Hin.
  - rewrite irq_disconnect_present by exact Hin.
    eexists. split; [reflexivity|]. simpl. auto.
Qed.

Lemma irq_disconnect_behaviour_witness :
  _irq _IRQ_CENTRAL_DISCONNECT [VInt 7; VInt 0; VBytes []] sample_state
    = (Raise (KeyError (VInt 7)), sample_state) /\
  exists s',
    _irq _IRQ_CENTRAL_DISCONNECT [VInt 1; VInt 0; VBytes []] connected_state
      = (Return tt, s') /\
    (connections s' = connections connected_state ∖ {[VInt 1]}) /\
    gatts_db (ble s') = gatts_db (ble connected_state) /\
    trace (ble s') =
      trace (ble connected_state)
        ++ [GapAdvertise advertise_default_interval (_payload (self connected_state))].
Proof.
  split.
  - apply (proj1 (irq_disconnect_behaviour (VInt 7) (VInt 0) (VBytes []) sample_state)).
    unfold connections. simpl. set_solver.
  - apply (proj2 (irq_disconnect_behaviour (VInt 1) (VInt 0) (VBytes []) connected_state)).
    unfold connections, connected_state. simpl. set_solver.
Defined.

(** ** Replaying connect and disconnect events *)

Lemma deliver_connect_connections h t a s :
  deliver (Connect h t a) s = (Return tt, snd (deliver (Connect h t a) s)) /\
  connections (snd (deliver (Connect h t a) s)) = {[h]} ∪ connections s.
Proof. split; reflexivity. Qed.

Lemma deliver_disconnect_connections h t a s :
  connections (snd (deliver (Disconnect h t a) s)) = connections s ∖ {[h]}.
Proof.
  simpl. destruct (decide (h ∈ connections s)) as [Hin|Hout].
  - rewrite irq_disconnect_present by exact Hin. reflexivity.
  - rewrite irq_disconnect_absent by exact Hout. simpl.
    symmetry. apply difference_disjoint_L. set_solver.
Qed.

Lemma replay_cons e evs s :
  replay (e :: evs) s =
  (fst (deliver e s) :: fst (replay evs (snd (deliver e s))),
   snd (replay evs (snd (deliver e s)))).
Proof.
  simpl. destruct (deliver e s) as [o s1]. simpl.
  destruct (replay evs s1) as [os s2]. reflexivity.
Qed.

(** Whatever is replayed, a handle ends up tracked exactly when the last
    event that names it is a connect. *)
Lemma replay_last_is_connect evs : forall s h,
  h ∈ connections (snd (replay evs s)) <->
  last_is_connect h (bool_decide (h ∈ connections s)) evs = true.
Proof.
  induction evs as [|e evs IH]; intros s h.
  - simpl. rewrite bool_decide_eq_true. reflexivity.
  - rewrite replay_cons. simpl snd. rewrite IH.
    destruct e as [h' t a|h' t a]; cbn [last_is_connect].
    + destruct (deliver_connect_connections h' t a s) as [_ ->].
      destruct (decide (h' = h)) as [->|Hne].
      * rewrite bool_decide_eq_true_2; [reflexivity|].
        apply elem_of_union. left. apply elem_of_singleton. reflexivity.
      * erewrite (bool_decide_ext (h ∈ {[h']} ∪ connections s)); [reflexivity|].
        rewrite elem_of_union, elem_of_singleton. intuition congruence.
    + rewrite deliver_disconnect_connections.
      destruct (decide (h' = h)) as [->|Hne].
      * rewrite bool_decide_eq_false_2; [reflexivity|].
        rewrite elem_of_difference, elem_of_singleton. intuition congruence.
      * erewrite (bool_decide_ext (h ∈ connections s ∖ {[h']})); [reflexivity|].
        rewrite elem_of_difference, elem_of_singleton. intuition congruence.
Qed.

Lemma count_connects_app h l1 l2 :
  count_connects h (l1 ++ l2) = (count_connects h l1 + count_connects h l2)%nat.
Proof.
  induction l1 as [|[h' t a|h' t a] l1 IH]; simpl; [reflexivity| |exact IH].
  rewrite IH. lia.
Qed.

Lemma count_disconnects_app h l1 l2 :
  count_disconnects h (l1 ++ l2)
  = (count_disconnects h l1 + count_disconnects h l2)%nat.
Proof.
  induction l1 as [|[h' t a|h' t a] l1 IH]; simpl; [reflexivity|exact IH|].
  rewrite IH. lia.
Qed.

Lemma counts_agree_connect seen s h t a :
  counts_agree seen s ->
  count_connects h seen = count_disconnects h seen ->
  counts_agree (seen ++ [Connect h t a]) (snd (deliver (Connect h t a) s)).
Proof.
  intros Hinv Hc k.
  destruct (deliver_connect_connections h t a s) as [_ ->].
  rewrite count_connects_app, count_disconnects_app.
  cbn [count_connects count_disconnects].
  destruct (Hinv k) as [Hin Hout].
  destruct (decide (h = k)) as [->|Hne].
  - split; intros Hk; [lia|].
    exfalso. apply Hk. apply elem_of_union. left. apply elem_of_singleton. reflexivity.
  - split; intros Hk.
    + assert (k ∈ connections s) as Hk'.
      { apply elem_of_union in Hk as [Hk|Hk]; [|exact Hk].
        apply elem_of_singleton in Hk. congruence. }
      specialize (Hin Hk'). lia.
    + assert (k ∉ connections s) as Hk'.
      { intros Hk'. apply Hk. apply elem_of_union. right. exact Hk'. }
      specialize (Hout Hk'). lia.
Qed.

Lemma counts_agree_disconnect seen s h t a :
  counts_agree seen s ->
  count_connects h seen = S (count_disconnects h seen) ->
  fst (deliver (Disconnect h t a) s) = Return tt /\
  counts_agree (seen ++ [Disconnect h t a]) (snd (deliver (Disconnect h t a) s)).
Proof.
  intros Hinv Hc.
  assert (Hh : h ∈ connections s).
  { destruct (decide (h ∈ connections s)) as [Hh|Hh]; [exact Hh|].
    apply (Hinv h) in Hh. lia. }
  split.
  - simpl. rewrite irq_disconnect_present by exact Hh. reflexivity.
  - intros k. rewrite deliver_disconnect_connections.
    rewrite count_connects_app, count_disconnects_app.
  cbn [count_connects count_disconnects].
    destruct (Hinv k) as [Hin Hout].
    destruct (decide (h = k)) as [->|Hne].
    + split; intros Hk.
      * apply elem_of_difference in Hk as [_ Hk].
        exfalso. apply Hk. apply elem_of_singleton. reflexivity.
      * specialize (Hin Hh). lia.
    + split; intros Hk.
      * apply elem_of_difference in Hk as [Hk _]. specialize (Hin Hk). lia.
      * assert (k ∉ connections s) as Hk'.
        { intros Hk'. apply Hk. apply elem_of_difference. split; [exact Hk'|].
          intros Hs. apply elem_of_singleton in Hs. congruence. }
        specialize (Hout Hk'). lia.
Qed.

Lemma replay_alternating_after evs : forall seen s,
  counts_agree seen s ->
  alternating_after seen evs = true ->
  Forall returned (fst (replay evs s)) /\
  counts_agree (seen ++ evs) (snd (replay evs s)).
Proof.
  induction evs as [|e evs IH]; intros seen s Hinv Halt.
  - simpl. rewrite app_nil_r. split; [constructor|exact Hinv].
  - rewrite replay_cons. cbn [fst snd].
    destruct e as [h t a|h t a]; cbn [alternating_after] in Halt;
      apply andb_prop in Halt as [Hc Halt]; apply Nat.eqb_eq in Hc.
    + pose proof (counts_agree_connect seen s h t a Hinv Hc) as Hinv'.
      destruct (IH _ _ Hinv' Halt) as [Hok Hfin].
      split.
      * constructor; [|exact Hok].
        destruct (deliver_connect_connections h t a s) as [E _].
        rewrite E. reflexivity.
      * rewrite <- app_assoc in Hfin. exact Hfin.
    + destruct (counts_agree_disconnect seen s h t a Hinv Hc) as [Hret Hinv'].
      destruct (IH _ _ Hinv' Halt) as [Hok Hfin].
      split.
      * constructor; [exact Hret|exact Hok].
      * rewrite <- app_assoc in Hfin. exact Hfin.
Qed.

Lemma last_is_connect_app h l1 : forall b l2,
  last_is_connect h b (l1 ++ l2) = last_is_connect h (last_is_connect h b l1) l2.
Proof.
  induction l1 as [|[h' t a|h' t a] l1 IH]; intros b l2; simpl;
    [reflexivity|apply IH|apply IH].
Qed.

Lemma deliver_disconnect_returned h t a s :
  returned (fst (deliver (Disconnect h t a) s)) <-> h ∈ connections s.
Proof.
  unfold returned. simpl. destruct (decide (h ∈ connections s)) as [Hin|Hout].
  - rewrite irq_disconnect_present by exact Hin. simpl. tauto.
  - rewrite irq_disconnect_absent by exact Hout. simpl.
    split; [discriminate|contradiction].
Qed.

(** An event raises exactly when it is a stray disconnect. *)
Lemma replay_returned_iff evs : forall seen s,
  (forall h, h ∈ connections s <-> last_is_connect h false seen = true) ->
  Forall returned (fst (replay evs s)) <-> no_stray_disconnect seen evs = true.
Proof.
  induction evs as [|e evs IH]; intros seen s Hinv.
  - simpl. split; [reflexivity|constructor].
  - rewrite replay_cons. cbn [fst snd].
    rewrite Forall_cons.
    destruct e as [h t a|h t a]; cbn [no_stray_disconnect].
    + rewrite (IH (seen ++ [Connect h t a])).
      * destruct (deliver_connect_connections h t a s) as [E _].
        rewrite E. unfold returned. simpl. tauto.
      * intros k. destruct (deliver_connect_connections h t a s) as [_ ->].
        rewrite last_is_connect_app. cbn [last_is_connect].
        rewrite elem_of_union, elem_of_singleton, Hinv.
        destruct (decide (h = k)); intuition congruence.
    + rewrite (IH (seen ++ [Disconnect h t a])).
      * rewrite deliver_disconnect_returned, Hinv, andb_true_iff. reflexivity.
      * intros k. rewrite deliver_disconnect_connections.
        rewrite last_is_connect_app. cbn [last_is_connect].
        rewrite elem_of_difference, elem_of_singleton, Hinv.
        destruct (decide (h = k)); intuition congruence.
Qed.

(** Every outcome of a replay is the expected one: the events that raise
    are the stray disconnects, each with KeyError for its own handle. *)
Lemma replay_outcomes evs : forall seen s,
  (forall h, h ∈ connections s <-> last_is_connect h false seen = true) ->
  fst (replay evs s) = expected_outcomes seen evs.
Proof.
  induction evs as [|e evs IH]; intros seen s Hinv; [reflexivity|].
  rewrite replay_cons. cbn [fst snd].
  destruct e as [h t a|h t a]; cbn [expected_outcomes].
  - rewrite (IH (seen ++ [Connect h t a])).
    + destruct (deliver_connect_connections h t a s) as [E _].
      rewrite E. reflexivity.
    + intros k. destruct (deliver_connect_connections h t a s) as [_ ->].
      rewrite last_is_connect_app. cbn [last_is_connect].
      rewrite elem_of_union, elem_of_singleton, Hinv.
      destruct (decide (h = k)); intuition congruence.
  - rewrite (IH (seen ++ [Disconnect h t a])).
    + f_equal. cbn [deliver].
      destruct (decide (h ∈ connections s)) as [Hin|Hout].
      * rewrite irq_disconnect_present by exact Hin.
        apply Hinv in Hin. rewrite Hin. reflexivity.
      * rewrite irq_disconnect_absent by exact Hout.
        destruct (last_is_connect h false seen) eqn:El; [|reflexivity].
        exfalso. apply Hout. apply Hinv. exact El.
    + intros k. rewrite deliver_disconnect_connections.
      rewrite last_is_connect_app. cbn [last_is_connect].
      rewrite elem_of_difference, elem_of_singleton, Hinv.
      destruct (decide (h = k)); intuition congruence.
Qed.

(** C1, as stated, fails twice over: a disconnect for a handle that is not
    tracked raises KeyError; and after connect 1, connect 1, disconnect 1
    nothing raises, handle 1 has had two connects and one disconnect, yet it
    is no longer tracked. *)
Lemma replay_counts_counterexample :
  fst (replay [Disconnect (VInt 7) (VInt 0) (VBytes [])] sample_state)
    = [Raise (KeyError (VInt 7))] /\
  let evs := [Connect (VInt 1) (VInt 0) (VBytes []);
              Connect (VInt 1) (VInt 0) (VBytes []);
              Disconnect (VInt 1) (VInt 0) (VBytes [])] in
  connections sample_state = ∅ /\
  Forall returned (fst (replay evs sample_state)) /\
  (count_disconnects (VInt 1) evs < count_connects (VInt 1) evs)%nat /\
  VInt 1 ∉ connections (snd (replay evs sample_state)).
Proof.
  split.
  - rewrite replay_cons. cbn [fst snd replay deliver].
    rewrite irq_disconnect_absent; [reflexivity|].
    unfold connections. simpl. apply not_elem_of_empty.
  - intros evs. split; [reflexivity|]. split; [|split].
    + apply (replay_returned_iff evs []); [|reflexivity].
      intros h. simpl. split; [|discriminate].
      intros Hh. exfalso. revert Hh. apply not_elem_of_empty.
    + unfold evs. simpl. lia.
    + rewrite replay_last_is_connect.
      rewrite bool_decide_eq_false_2 by apply not_elem_of_empty.
      simpl. discriminate.
Qed.

(** C1, amended: replayed from an empty connection set, any finite sequence
    of connect and disconnect events leaves tracked exactly the handles whose
    most recent event is a connect.  Every connect event returns normally; a
    disconnect event returns normally when the most recent earlier event
    naming its handle is a connect, and otherwise it raises KeyError for that
    handle; so no event raises exactly when no disconnect is stray.  When, for
    every handle, connects and disconnects alternate starting with a connect,
    no event raises and the tracked handles are exactly those with strictly
    more connects than disconnects. *)
Theorem replay_connection_set (evs : list central_event) (s : state) :
  connections s = ∅ ->
  (forall h, h ∈ connections (snd (replay evs s)) <->
             last_is_connect h false evs = true) /\
  fst (replay evs s) = expected_outcomes [] evs /\
  (Forall returned (fst (replay evs s)) <-> no_stray_disconnect [] evs = true) /\
  (alternating evs = true ->
   Forall returned (fst (replay evs s)) /\
   forall h, h ∈ connections (snd (replay evs s)) <->
             (count_disconnects h evs < count_connects h evs)%nat).
Proof.
  intros Hempty.
  assert (Hstart : forall h,
             h ∈ connections s <-> last_is_connect h false [] = true).
  { intros h. rewrite Hempty. simpl. split; [|discriminate].
    intros Hh. exfalso. revert Hh. apply not_elem_of_empty. }
  split; [|split; [|split]].
  - intros h. rewrite replay_last_is_connect, Hempty.
    rewrite bool_decide_eq_false_2 by apply not_elem_of_empty. reflexivity.
  - apply replay_outcomes. exact Hstart.
  - apply replay_returned_iff. exact Hstart.
  - intros Halt.
    assert (Hinv : counts_agree [] s).
    { intros h. simpl. split; [|reflexivity].
      rewrite Hempty. intros Hh. exfalso. revert Hh. apply not_elem_of_empty. }
    destruct (replay_alternating_after evs [] s Hinv Halt) as [Hok Hfin].
    split; [exact Hok|]. intros h. simpl in Hfin.
    destruct (Hfin h) as [Hin Hout]. split.
    + intros Hh. specialize (Hin Hh). lia.
    + intros Hlt. destruct (decide (h ∈ connections (snd (replay evs s)))) as [Hh|Hh];
        [exact Hh|]. specialize (Hout Hh). lia.
Qed.

Lemma replay_connection_set_witness :
  let evs := [Connect (VInt 1) (VInt 0) (VBytes [xaa]);
              Connect (VInt 2) (VInt 1) (VBytes [xbb]);
              Disconnect (VInt 1) (VInt 0) (VBytes [xaa]);
              Connect (VInt 1) (VInt 0) (VBytes [xaa])] in
  let stray := [Disconnect (VInt 7) (VInt 0) (VBytes []);
                Connect (VInt 7) (VInt 0) (VBytes []);
                Disconnect (VInt 7) (VInt 0) (VBytes []);
                Disconnect (VInt 8) (VInt 0) (VBytes [])] in
  (Forall returned (fst (replay evs sample_state)) /\
   forall h, h ∈ connections (snd (replay evs sample_state)) <->
             (count_disconnects h evs < count_connects h evs)%nat) /\
  fst (replay stray sample_state)
    = [Raise (KeyError (VInt 7)); Return tt; Return tt;
       Raise (KeyError (VInt 8))].
Proof.
  intros evs stray. split.
  - destruct (replay_connection_set evs sample_state eq_refl) as (_ & _ & _ & H).
    apply H. reflexivity.
  - destruct (replay_connection_set stray sample_state eq_refl) as (_ & H & _).
    exact H.
Defined.

(** ** Traces *)

Lemma log_nil s : log [] s = s.
Proof. unfold log. rewrite app_nil_r. destruct s as [me [db tr]]; reflexivity. Qed.

Lemma log_log es1 es2 s : log es2 (log es1 s) = log (es1 ++ es2) s.
Proof. unfold log. simpl. rewrite app_assoc. reflexivity. Qed.

Lemma emit_log e s : emit e s = (Return tt, log [e] s).
Proof. reflexivity. Qed.

(** A loop whose body only logs, logs the bodies' effects in order. *)
Lemma for_each_log {A : Type} (body : A -> M unit) (f : A -> list effect) :
  (forall x s, body x s = (Return tt, log (f x) s)) ->
  forall l s, for_each l body s = (Return tt, log (flat_map f l) s).
Proof.
  intros Hbody l. induction l as [|x l IH]; intros s.
  - simpl. rewrite log_nil. reflexivity.
  - cbn [for_each flat_map]. rewrite bind_run, Hbody, IH, log_log. reflexivity.
Qed.

Lemma effects_of_log {A : Type} (m : M A) (s : state) (a : outcome A)
    (db : gmap Z (list byte)) (es : list effect) :
  m s = (a, {| self := self s;
               ble := {| gatts_db := db; trace := trace (ble s) ++ es |} |}) ->
  effects_of m s = es.
Proof.
  intros E. unfold effects_of. rewrite E. simpl.
  rewrite drop_app_length. reflexivity.
Qed.

(** ** Publishing a sample *)

Lemma fanout_body_log (me : BLEEnvironment) (notify indicate : bool) c s :
  ((if notify then
      gatts_notify c (_temp_handle me);;
      gatts_notify c (_pressure_handle me);;
      gatts_notify c (_humidity_handle me)
    else mret tt);;
   (if indicate then
      gatts_indicate c (_temp_handle me);;
      gatts_indicate c (_pressure_handle me);;
      gatts_indicate c (_humidity_handle me)
    else mret tt)) s
  = (Return tt, log (fanout me notify indicate c) s).
Proof.
  destruct notify, indicate;
    cbv [fanout log mbind M_bind mret M_ret gatts_notify gatts_indicate emit
         self ble gatts_db trace];
    rewrite <- ?app_assoc; cbn [app]; try reflexivity.
  rewrite app_nil_r. destruct s as [me' [db tr]]. reflexivity.
Qed.

(** What one call of [set_environment_data] does, in closed form. *)
Lemma set_environment_data_run (temp pressure humidity : Z)
    (notify indicate : bool) (s : state) :
  set_environment_data temp pressure humidity notify indicate s =
  (Return tt,
   {| self := self s;
      ble :=
        {| gatts_db :=
             <[_humidity_handle (self s) := struct_pack_le_i (int humidity)]>
               (<[_pressure_handle (self s) := struct_pack_le_i (int pressure)]>
                  (<[_temp_handle (self s) := struct_pack_le_i (int temp)]>
                     (gatts_db (ble s))));
           trace :=
             trace (ble s) ++
             [GattsWrite (_temp_handle (self s)) (struct_pack_le_i (int temp));
              GattsWrite (_pressure_handle (self s)) (struct_pack_le_i (int pressure));
              GattsWrite (_humidity_handle (self s)) (struct_pack_le_i (int humidity))]
             ++ (if notify || indicate
                 then flat_map (fanout (self s) notify indicate)
                               (elements (connections s))
                 else []) |} |}).
Proof.
  unfold set_environment_data.
  rewrite bind_run. cbn [get_self].
  rewrite bind_run. cbn [gatts_write self ble gatts_db trace].
  rewrite bind_run. cbn [gatts_write self ble gatts_db trace].
  rewrite bind_run. cbn [gatts_write self ble gatts_db trace].
  destruct (notify || indicate).
  - rewrite (for_each_log _ (fanout (self s) notify indicate))
      by (intros c s'; apply fanout_body_log).
    unfold log, connections. simpl. rewrite <- !app_assoc. reflexivity.
  - unfold mret, M_ret. rewrite <- !app_assoc. reflexivity.
Qed.

Lemma set_environment_data_effects (temp pressure humidity : Z)
    (notify indicate : bool) (s : state) :
  effects_of (set_environment_data temp pressure humidity notify indicate) s =
  [GattsWrite (_temp_handle (self s)) (struct_pack_le_i (int temp));
   GattsWrite (_pressure_handle (self s)) (struct_pack_le_i (int pressure));
   GattsWrite (_humidity_handle (self s)) (struct_pack_le_i (int humidity))]
  ++ (if notify || indicate
      then flat_map (fanout (self s) notify indicate) (elements (connections s))
      else []).
Proof.
  eapply effects_of_log. rewrite set_environment_data_run. reflexivity.
Qed.

Lemma set_environment_data_trace (temp pressure humidity : Z)
    (notify indicate : bool) (s : state) :
  trace (ble (snd (set_environment_data temp pressure humidity notify indicate s)))
  = trace (ble s)
    ++ effects_of (set_environment_data temp pressure humidity notify indicate) s.
Proof.
  rewrite set_environment_data_effects, set_environment_data_run.
  reflexivity.
Qed.

Lemma filter_fanout_count (me : BLEEnvironment) (notify indicate : bool)
    (l : list pyval) :
  length (List.filter is_notify (flat_map (fanout me notify indicate) l))
    = ((if notify then 3 else 0) * length l)%nat /\
  length (List.filter is_indicate (flat_map (fanout me notify indicate) l))
    = ((if indicate then 3 else 0) * length l)%nat.
Proof.
  induction l as [|c l [IHn IHi]]; [split; simpl; lia|].
  cbn [flat_map]. rewrite !List.filter_app, !length_app, IHn, IHi.
  destruct notify, indicate; cbn; lia.
Qed.

Lemma filter_sent_to_fanout_other (me : BLEEnvironment) (notify indicate : bool)
    (c c' : pyval) :
  c' <> c -> List.filter (sent_to c) (fanout me notify indicate c') = [].
Proof.
  intros Hne. unfold fanout.
  destruct notify, indicate; cbn [app List.filter sent_to];
    rewrite ?bool_decide_eq_false_2 by exact Hne; reflexivity.
Qed.

Lemma filter_sent_to_fanout_same (me : BLEEnvironment) (notify indicate : bool)
    (c : pyval) :
  List.filter (sent_to c) (fanout me notify indicate c) = fanout me notify indicate c.
Proof.
  unfold fanout.
  destruct notify, indicate; cbn [app List.filter sent_to];
    rewrite ?bool_decide_eq_true_2 by reflexivity; reflexivity.
Qed.

Lemma filter_sent_to_flat_map (me : BLEEnvironment) (notify indicate : bool)
    (c : pyval) (l : list pyval) :
  NoDup l ->
  List.filter (sent_to c) (flat_map (fanout me notify indicate) l)
  = if decide (c ∈ l) then fanout me notify indicate c else [].
Proof.
  induction 1 as [|c' l Hnotin Hnd IH].
  - destruct (decide (c ∈ [])) as [Hin|_]; [|reflexivity].
    apply elem_of_nil in Hin. contradiction.
  - cbn [flat_map]. rewrite List.filter_app, IH.
    destruct (decide (c' = c)) as [->|Hne].
    + rewrite filter_sent_to_fanout_same.
      rewrite (decide_False (P := c ∈ l)) by exact Hnotin.
      rewrite (decide_True (P := c ∈ c :: l)) by (apply elem_of_cons; left; reflexivity).
      apply app_nil_r.
    + rewrite filter_sent_to_fanout_other by exact Hne. cbn [app].
      destruct (decide (c ∈ l)) as [Hin|Hout].
      * rewrite decide_True; [reflexivity|]. apply elem_of_cons. right. exact Hin.
      * rewrite decide_False; [reflexivity|].
        intros Hin. apply elem_of_cons in Hin as [->|Hin]; contradiction.
Qed.

(** C4: with notify set and indicate clear, [set_environment_data] returns
    normally and the calls it makes contain exactly three notify calls for
    each tracked connection, 3 x N in all for N connections, and no indicate
    call; the calls addressed to a tracked connection are one notify per
    numeric characteristic, and nothing is addressed to any other
    connection. *)
Theorem publish_notify_only_counts (temp pressure humidity : Z) (s : state) :
  let m := set_environment_data temp pressure humidity true false in
  fst (m s) = Return tt /\
  trace (ble (snd (m s))) = trace (ble s) ++ effects_of m s /\
  length (List.filter is_notify (effects_of m s)) = (3 * size (connections s))%nat /\
  length (List.filter is_indicate (effects_of m s)) = 0%nat /\
  forall c,
    List.filter (sent_to c) (effects_of m s) =
    if decide (c ∈ connections s)
    then [GattsNotify c (_temp_handle (self s));
          GattsNotify c (_pressure_handle (self s));
          GattsNotify c (_humidity_handle (self s))]
    else [].
Proof.
  intros m. unfold m.
  split; [rewrite set_environment_data_run; reflexivity|].
  split; [apply set_environment_data_trace|].
  rewrite set_environment_data_effects. cbn [orb].
  rewrite !List.filter_app, !length_app.
  destruct (filter_fanout_count (self s) true false (elements (connections s)))
    as [-> ->].
  split; [reflexivity|]. split; [reflexivity|].
  intros c. cbn [List.filter sent_to app].
  rewrite filter_sent_to_flat_map by apply NoDup_elements.
  destruct (decide (c ∈ connections s)) as [Hin|Hout].
  - rewrite decide_True by (apply elem_of_elements; exact Hin). reflexivity.
  - rewrite decide_False; [reflexivity|].
    intros Hin. apply Hout. apply elem_of_elements. exact Hin.
Qed.

(** C7: with notify and indicate both set, the calls addressed to any tracked
    connection are, in this order: notify temperature, notify pressure,
    notify humidity, indicate temperature, indicate pressure, indicate
    humidity. *)
Theorem publish_both_order_per_connection (temp pressure humidity : Z)
    (c : pyval) (s : state) :
  c ∈ connections s ->
  List.filter (sent_to c)
    (effects_of (set_environment_data temp pressure humidity true true) s)
  = [GattsNotify c (_temp_handle (self s));
     GattsNotify c (_pressure_handle (self s));
     GattsNotify c (_humidity_handle (self s));
     GattsIndicate c (_temp_handle (self s));
     GattsIndicate c (_pressure_handle (self s));
     GattsIndicate c (_humidity_handle (self s))].
Proof.
  intros Hin. rewrite set_environment_data_effects. cbn [orb].
  rewrite List.filter_app. cbn [List.filter sent_to app].
  rewrite filter_sent_to_flat_map by apply NoDup_elements.
  rewrite decide_True by (apply elem_of_elements; exact Hin).
  reflexivity.
Qed.

Lemma publish_both_order_per_connection_witness :
  List.filter (sent_to (VInt 1))
    (effects_of (set_environment_data 21 101325 45 true true) connected_state)
  = [GattsNotify (VInt 1) 10; GattsNotify (VInt 1) 12; GattsNotify (VInt 1) 14;
     GattsIndicate (VInt 1) 10; GattsIndicate (VInt 1) 12;
     GattsIndicate (VInt 1) 14].
Proof.
  exact (publish_both_order_per_connection 21 101325 45 (VInt 1) connected_state
           connected_state_tracks_1).
Defined.

(** C5: whatever the flags, [set_environment_data] returns normally, starts
    with the three characteristic writes (temperature, pressure, humidity)
    and leaves the three packed values in the attribute store; with notify
    and indicate both clear these three writes are all it does, so no notify
    and no indicate call is made, for every connection set. *)
Theorem publish_writes_unconditionally (temp pressure humidity : Z)
    (notify indicate : bool) (s : state) :
  let writes :=
    [GattsWrite (_temp_handle (self s)) (struct_pack_le_i (int temp));
     GattsWrite (_pressure_handle (self s)) (struct_pack_le_i (int pressure));
     GattsWrite (_humidity_handle (self s)) (struct_pack_le_i (int humidity))] in
  let m := set_environment_data temp pressure humidity in
  fst (m notify indicate s) = Return tt /\
  gatts_db (ble (snd (m notify indicate s))) =
    <[_humidity_handle (self s) := struct_pack_le_i (int humidity)]>
      (<[_pressure_handle (self s) := struct_pack_le_i (int pressure)]>
         (<[_temp_handle (self s) := struct_pack_le_i (int temp)]>
            (gatts_db (ble s)))) /\
  take 3 (effects_of (m notify indicate) s) = writes /\
  effects_of (m false false) s = writes /\
  length (List.filter is_notify (effects_of (m false false) s)) = 0%nat /\
  length (List.filter is_indicate (effects_of (m false false) s)) = 0%nat.
Proof.
  intros writes m. unfold m, writes.
  rewrite !set_environment_data_effects, set_environment_data_run.
  cbn [fst snd ble gatts_db orb]. rewrite app_nil_r.
  repeat split; reflexivity.
Qed.

(** ** The command channel *)

(** What one call of [read_act] does, in closed form. *)
Lemma read_act_run (s : state) :
  read_act s =
  (Return tt,
   {| self := self s;
      ble :=
        {| gatts_db :=
             <[_string_handle (self s) := struct_pack_le_i 0]> (gatts_db (ble s));
           trace :=
             trace (ble s) ++
             [GattsRead (_string_handle (self s))]
             ++ (if decide (default [] (gatts_db (ble s) !! _string_handle (self s))
                            = bytes_utf8 "blink")
                 then [PinOut 23] ++ pulse 23 ++ pulse 23 ++ pulse 23
                 else [])
             ++ [GattsWrite (_string_handle (self s)) (struct_pack_le_i 0)] |} |}).
Proof.
  unfold read_act.
  rewrite bind_run. cbn [get_self].
  rewrite bind_run. cbn [gatts_read self ble gatts_db trace].
  rewrite bind_run.
  destruct (decide (default [] (gatts_db (ble s) !! _string_handle (self s))
                    = bytes_utf8 "blink")) as [E|E].
  - cbv [Pin_OUT for_each seq blink pin_on pin_off sleep_ms emit mbind M_bind
         mret M_ret gatts_write self ble gatts_db trace pulse].
    rewrite <- !app_assoc. reflexivity.
  - cbv [mret M_ret gatts_write self ble gatts_db trace].
    rewrite <- !app_assoc. reflexivity.
Qed.

Lemma read_act_effects (s : state) :
  effects_of read_act s =
  [GattsRead (_string_handle (self s))]
  ++ (if decide (default [] (gatts_db (ble s) !! _string_handle (self s))
                 = bytes_utf8 "blink")
      then [PinOut 23] ++ pulse 23 ++ pulse 23 ++ pulse 23
      else [])
  ++ [GattsWrite (_string_handle (self s)) (struct_pack_le_i 0)].
Proof. eapply effects_of_log. rewrite read_act_run. reflexivity. Qed.

(** C3: [read_act] always returns normally and ends by writing four zero
    bytes to the command characteristic, which then reads back as four zero
    bytes.  When the characteristic held the UTF-8 bytes of "blink", it
    reads the characteristic, makes pin 23 an output, pulses it exactly three
    times (on, 500 ms, off, 500 ms) and only then performs the clearing
    write; for any other content the read is followed directly by the
    clearing write and the pin is not touched. *)
Theorem read_act_blink_then_clear (s : state) :
  let cmd := _string_handle (self s) in
  let value := default [] (gatts_db (ble s) !! cmd) in
  let zeros := [x00; x00; x00; x00] in
  fst (read_act s) = Return tt /\
  trace (ble (snd (read_act s))) = trace (ble s) ++ effects_of read_act s /\
  fst (gatts_read cmd (snd (read_act s))) = Return zeros /\
  (value = bytes_utf8 "blink" ->
   effects_of read_act s =
   [GattsRead cmd; PinOut 23;
    PinOn 23; SleepMs 500; PinOff 23; SleepMs 500;
    PinOn 23; SleepMs 500; PinOff 23; SleepMs 500;
    PinOn 23; SleepMs 500; PinOff 23; SleepMs 500;
    GattsWrite cmd zeros]) /\
  (value <> bytes_utf8 "blink" ->
   effects_of read_act s = [GattsRead cmd; GattsWrite cmd zeros]).
Proof.
  intros cmd value zeros. unfold cmd, value, zeros.
  rewrite read_act_effects, read_act_run. cbn [fst snd ble trace gatts_db].
  split; [reflexivity|]. split; [reflexivity|]. split.
  - unfold gatts_read. cbn [fst ble gatts_db self].
    rewrite lookup_insert_eq. reflexivity.
  - split; intros E.
    + rewrite decide_True by exact E. reflexivity.
    + rewrite decide_False by exact E. reflexivity.
Qed.

Lemma read_act_blink_then_clear_witness :
  effects_of read_act (command_state "blink") =
  [GattsRead 16; PinOut 23;
   PinOn 23; SleepMs 500; PinOff 23; SleepMs 500;
   PinOn 23; SleepMs 500; PinOff 23; SleepMs 500;
   PinOn 23; SleepMs 500; PinOff 23; SleepMs 500;
   GattsWrite 16 [x00; x00; x00; x00]] /\
  effects_of read_act (command_state "hello") =
  [GattsRead 16; GattsWrite 16 [x00; x00; x00; x00]].
Proof.
  split.
  - apply (read_act_blink_then_clear (command_state "blink")).
    vm_compute. reflexivity.
  - apply (read_act_blink_then_clear (command_state "hello")).
    vm_compute. discriminate.
Defined.

(** ** Frame properties *)

(** The callback never touches the captured handles, the payload or the
    attribute store, whatever the event and its payload. *)
Lemma irq_handles (event : Z) (data : list pyval) (s : state) :
  handles (self (snd (_irq event data s))) = handles (self s).
Proof.
  unfold _irq.
  destruct (event =? _IRQ_CENTRAL_CONNECT);
    [|destruct (event =? _IRQ_CENTRAL_DISCONNECT);
      [|destruct (event =? _IRQ_GATTS_INDICATE_DONE)]];
    destruct data as [|a [|b [|c [|d l]]]]; try reflexivity.
  rewrite bind_run. cbn [unpack3 mret M_ret].
  rewrite bind_run. unfold connections_remove. rewrite bind_run. cbn [get_self].
  destruct (decide (a ∈ _connections (self s))); reflexivity.
Qed.

(** Events other than connect and disconnect leave the whole state alone,
    also when the payload is malformed. *)
Lemma irq_other_state (event : Z) (data : list pyval) (s : state) :
  event <> _IRQ_CENTRAL_CONNECT ->
  event <> _IRQ_CENTRAL_DISCONNECT ->
  snd (_irq event data s) = s.
Proof.
  intros H1 H2. unfold _irq.
  destruct (Z.eqb_spec event _IRQ_CENTRAL_CONNECT); [contradiction|].
  destruct (Z.eqb_spec event _IRQ_CENTRAL_DISCONNECT); [contradiction|].
  destruct (event =? _IRQ_GATTS_INDICATE_DONE); [|reflexivity].
  destruct data as [|a [|b [|c [|d l]]]]; reflexivity.
Qed.

(** C10: [set_environment_data] (with any arguments and flags) and [read_act]
    leave the [BLEEnvironment] object, hence its connection set and its four
    captured handles, exactly as it was; the event callback never changes the
    four handles, and it changes the connection set only for connect and
    disconnect events. *)
Theorem connection_set_and_handles_frame (temp pressure humidity : Z)
    (notify indicate : bool) (event : Z) (data : list pyval) (s : state) :
  (self (snd (set_environment_data temp pressure humidity notify indicate s))
     = self s /\
   self (snd (read_act s)) = self s) /\
  handles (self (snd (_irq event data s))) = handles (self s) /\
  (event <> _IRQ_CENTRAL_CONNECT ->
   event <> _IRQ_CENTRAL_DISCONNECT ->
   connections (snd (_irq event data s)) = connections s).
Proof.
  split; [split|split].
  - rewrite set_environment_data_run. reflexivity.
  - rewrite read_act_run. reflexivity.
  - apply irq_handles.
  - intros H1 H2. rewrite irq_other_state by assumption. reflexivity.
Qed.

Lemma connection_set_and_handles_frame_witness :
  (self (snd (set_environment_data 21 101325 45 true true connected_state))
     = self connected_state /\
   self (snd (read_act connected_state)) = self connected_state) /\
  handles (self (snd (_irq 20 [VInt 1; VInt 10] connected_state)))
    = handles (self connected_state) /\
  connections (snd (_irq 20 [VInt 1; VInt 10] connected_state))
    = connections connected_state.
Proof.
  destruct (connection_set_and_handles_frame 21 101325 45 true true
              20 [VInt 1; VInt 10] connected_state) as (H1 & H2 & H3).
  split; [exact H1|]. split; [exact H2|]. apply H3; discriminate.
Defined.

(** ** The wire encoding *)

Lemma Z_of_byte_of_Z (z : Z) : Z_of_byte (byte_of_Z z) = z mod 256.
Proof.
  unfold Z_of_byte, byte_of_Z.
  change 255 with (Z.ones 8). rewrite Z.land_ones by lia.
  change (2 ^ 8) with 256.
  pose proof (Z.mod_pos_bound z 256 ltac:(lia)) as Hb.
  destruct (Byte.of_N (Z.to_N (z mod 256))) as [b|] eqn:E.
  - apply Byte.to_of_N in E. rewrite E. lia.
  - apply Byte.of_N_None_iff in E. lia.
Qed.

Lemma struct_pack_le_i_values (x : Z) :
  map Z_of_byte (struct_pack_le_i x) =
  [x mod 256; (x / 256) mod 256; (x / 65536) mod 256; (x / 16777216) mod 256].
Proof.
  unfold struct_pack_le_i. cbn [map]. rewrite !Z_of_byte_of_Z.
  rewrite !Z.shiftr_div_pow2 by lia. reflexivity.
Qed.

Lemma le_i32_byte_values_wrap (v : Z) :
  [v mod 256; (v / 256) mod 256; (v / 65536) mod 256; (v / 16777216) mod 256]
  = le_i32_byte_values v.
Proof.
  unfold le_i32_byte_values, twos_complement_32.
  destruct (v <? 0); [|reflexivity].
  change (2 ^ 32) with 4294967296.
  replace ((v + 4294967296) mod 256) with (v mod 256)
    by (change 4294967296 with (16777216 * 256); rewrite Z.mod_add by lia; reflexivity).
  replace ((v + 4294967296) / 256) with (v / 256 + 65536 * 256)
    by (change 4294967296 with (16777216 * 256); rewrite Z.div_add by lia; reflexivity).
  replace ((v + 4294967296) / 65536) with (v / 65536 + 256 * 256)
    by (change 4294967296 with (65536 * 65536); rewrite Z.div_add by lia; reflexivity).
  replace ((v + 4294967296) / 16777216) with (v / 16777216 + 1 * 256)
    by (change 4294967296 with (256 * 16777216); rewrite Z.div_add by lia; reflexivity).
  rewrite !Z.mod_add by lia. reflexivity.
Qed.

Lemma int_from_bytes_struct_pack (v : Z) :
  - 2 ^ 31 <= v < 2 ^ 31 ->
  int_from_bytes_le_signed (struct_pack_le_i v) = v.
Proof.
  intros Hv. unfold int_from_bytes_le_signed, struct_pack_le_i.
  cbn [fold_right length]. rewrite !Z_of_byte_of_Z.
  rewrite !Z.shiftr_div_pow2 by lia.
  change (8 * Z.of_nat 4) with 32.
  change (2 ^ 8) with 256. change (2 ^ 16) with 65536.
  change (2 ^ 24) with 16777216.
  change (2 ^ (32 - 1)) with 2147483648. change (2 ^ 32) with 4294967296.
  change (2 ^ 31) with 2147483648 in Hv.
  destruct (Z.ltb_spec
              (v mod 256 + 256 * ((v / 256) mod 256 + 256 * ((v / 65536) mod 256
                 + 256 * ((v / 16777216) mod 256 + 256 * 0)))) 2147483648);
    Z.to_euclidean_division_equations; lia.
Qed.

Lemma reads_back_packed (s : state) (value_handle v : Z) :
  - 2 ^ 31 <= v < 2 ^ 31 ->
  gatts_db (ble s) !! value_handle = Some (struct_pack_le_i v) ->
  reads_back_as s value_handle v.
Proof.
  intros Hv Hdb. exists (struct_pack_le_i v).
  split; [unfold gatts_read; cbn [fst]; rewrite Hdb; reflexivity|].
  split; [reflexivity|]. split.
  - rewrite struct_pack_le_i_values. apply le_i32_byte_values_wrap.
  - apply int_from_bytes_struct_pack. exact Hv.
Qed.

(** C6: when the three numeric characteristics have distinct attribute
    handles and the values lie in the signed 32-bit range, then after
    [set_environment_data] each numeric characteristic reads back as four
    bytes whose values are the little-endian two's-complement encoding of
    the value written, and decoding them as a signed little-endian integer
    returns that value, negative values included. *)
Theorem publish_read_back_roundtrip (temp pressure humidity : Z)
    (notify indicate : bool) (s : state) :
  _temp_handle (self s) <> _pressure_handle (self s) ->
  _temp_handle (self s) <> _humidity_handle (self s) ->
  _pressure_handle (self s) <> _humidity_handle (self s) ->
  - 2 ^ 31 <= temp < 2 ^ 31 ->
  - 2 ^ 31 <= pressure < 2 ^ 31 ->
  - 2 ^ 31 <= humidity < 2 ^ 31 ->
  let s' := snd (set_environment_data temp pressure humidity notify indicate s) in
  reads_back_as s' (_temp_handle (self s)) (int temp) /\
  reads_back_as s' (_pressure_handle (self s)) (int pressure) /\
  reads_back_as s' (_humidity_handle (self s)) (int humidity).
Proof.
  intros Htp Hth Hph Ht Hp Hh s'. unfold s', int.
  rewrite set_environment_data_run. cbn [snd]. unfold int.
  split; [|split]; apply reads_back_packed; try assumption; cbn [ble gatts_db].
  - rewrite lookup_insert_ne by congruence.
    rewrite lookup_insert_ne by congruence.
    apply lookup_insert_eq.
  - rewrite lookup_insert_ne by congruence. apply lookup_insert_eq.
  - apply lookup_insert_eq.
Qed.

Lemma publish_read_back_roundtrip_witness :
  let s' := snd (set_environment_data (-5) 101325 45 true false connected_state) in
  reads_back_as s' 10 (-5) /\
  reads_back_as s' 12 101325 /\
  reads_back_as s' 14 45.
Proof.
  apply (publish_read_back_roundtrip (-5) 101325 45 true false connected_state);
    vm_compute; repeat split; (discriminate || reflexivity).
Defined.

(** The bytes on the wire for the witness above: -5 is fb ff ff ff. *)
Example struct_pack_le_i_minus_5 :
  struct_pack_le_i (-5) = [xfb; xff; xff; xff].
Proof. reflexivity. Qed.

Example struct_pack_le_i_101325 :
  struct_pack_le_i 101325 = [xcd; x8b; x01; x00].
Proof. reflexivity. Qed.

(** ** The end-to-end scenario *)

Example scenario_outcome : fst (scenario sample_state) = Return tt.
Proof. vm_compute. reflexivity. Qed.

Example scenario_trace :
  trace (ble (snd (scenario sample_state))) =
  [GattsWrite 10 [x15; x00; x00; x00];
   GattsWrite 12 [xcd; x8b; x01; x00];
   GattsWrite 14 [x2d; x00; x00; x00];
   GattsNotify (VInt 1) 10; GattsNotify (VInt 1) 12; GattsNotify (VInt 1) 14;
   GapAdvertise 500000 [x02; x01; x06]].
Proof. vm_compute. reflexivity. Qed.

Example scenario_connections :
  elements (connections (snd (scenario sample_state))) = [].
Proof. vm_compute. reflexivity. Qed.

(** * Further properties of the code *)

(** ** Construction *)

(** X1: when the stack answers the registration with one tuple of four
    handles, construction succeeds after the three setup calls (activate,
    register the callback, register the one service): the handles are
    captured in the order returned, the connection set is empty, the payload
    is the one built from the name, the service UUID and the appearance code,
    the attribute store is untouched and advertising has been started once,
    with that payload at the default interval. *)
Theorem init_captures_handles
    (advertising_payload : string -> list Z -> Z -> list byte)
    (registered : list (list Z)) (name : string) (w : world) :
  length registered = 1%nat ->
  Forall (fun hs => length hs = 4%nat) registered ->
  fst (__init__ advertising_payload registered name w)
    = [BleActive true; BleIrq; GattsRegisterServices [_ENV_SENSE_SERVICE]] /\
  exists s,
    snd (__init__ advertising_payload registered name w) = Return s /\
    [[_temp_handle (self s); _pressure_handle (self s);
      _humidity_handle (self s); _string_handle (self s)]] = registered /\
    connections s = ∅ /\
    _payload (self s) = advertising_payload name [0x181A] 5696 /\
    gatts_db (ble s) = gatts_db w /\
    trace (ble s) = trace w ++ [GapAdvertise 500000 (_payload (self s))].
Proof.
  intros Hlen Hall.
  destruct registered as [|hs [|hs' rest]]; try discriminate Hlen.
  apply Forall_cons in Hall as [Hhs _].
  destruct hs as [|t [|p [|h [|sh [|x hs]]]]]; try discriminate Hhs.
  split; [reflexivity|].
  eexists. split; [reflexivity|]. repeat split; reflexivity.
Qed.

Lemma init_captures_handles_witness :
  exists s,
    snd (__init__ (fun _ _ _ => [x02; x01; x06]) [[10; 12; 14; 16]] default_name
           {| gatts_db := ∅; trace := [] |}) = Return s /\
    [[_temp_handle (self s); _pressure_handle (self s);
      _humidity_handle (self s); _string_handle (self s)]] = [[10; 12; 14; 16]] /\
    connections s = ∅ /\
    _payload (self s) = [x02; x01; x06] /\
    gatts_db (ble s) = ∅ /\
    trace (ble s) = [GapAdvertise 500000 (_payload (self s))].
Proof.
  apply (init_captures_handles (fun _ _ _ => [x02; x01; x06]) [[10; 12; 14; 16]]
           default_name {| gatts_db := ∅; trace := [] |}).
  - reflexivity.
  - repeat constructor.
Defined.

(** ** Publishing, for any flags *)

Lemma publish_sent_to (temp pressure humidity : Z) (notify indicate : bool)
    (c : pyval) (s : state) :
  List.filter (sent_to c)
    (effects_of (set_environment_data temp pressure humidity notify indicate) s)
  = if decide (c ∈ connections s) then fanout (self s) notify indicate c else [].
Proof.
  rewrite set_environment_data_effects.
  rewrite List.filter_app. cbn [List.filter sent_to app].
  destruct notify, indicate; cbn [orb];
    try (rewrite filter_sent_to_flat_map by apply NoDup_elements;
         destruct (decide (c ∈ connections s)) as [Hin|Hout];
         [rewrite decide_True by (apply elem_of_elements; exact Hin); reflexivity
         |rewrite decide_False; [reflexivity|];
          intros Hin; apply Hout; apply elem_of_elements; exact Hin]).
  destruct (decide (c ∈ connections s)); reflexivity.
Qed.

(** X3: for every combination of the flags and every connection set of size
    N, [set_environment_data] makes exactly three characteristic writes,
    3 x N notify calls if notify is set and none otherwise, 3 x N indicate
    calls if indicate is set and none otherwise, and nothing else; in
    particular an empty connection set means no notify and no indicate call
    whatever the flags. *)
Theorem publish_call_counts (temp pressure humidity : Z)
    (notify indicate : bool) (s : state) :
  let es :=
    effects_of (set_environment_data temp pressure humidity notify indicate) s in
  length (List.filter is_write es) = 3%nat /\
  length (List.filter is_notify es)
    = ((if notify then 3 else 0) * size (connections s))%nat /\
  length (List.filter is_indicate es)
    = ((if indicate then 3 else 0) * size (connections s))%nat /\
  length es
    = (3 + ((if notify then 3 else 0) + (if indicate then 3 else 0))
           * size (connections s))%nat.
Proof.
  intros es. unfold es. rewrite set_environment_data_effects.
  rewrite !List.filter_app, !length_app. cbn [List.filter is_write is_notify
    is_indicate length].
  assert (Hlen : forall l : list pyval,
             length (flat_map (fanout (self s) notify indicate) l)
             = (((if notify then 3 else 0) + (if indicate then 3 else 0))
                * length l)%nat).
  { induction l as [|c l IH]; [simpl; lia|].
    cbn [flat_map]. rewrite length_app, IH.
    destruct notify, indicate; cbn; lia. }
  assert (Hw : forall l : list pyval,
             List.filter is_write (flat_map (fanout (self s) notify indicate) l)
             = []).
  { induction l as [|c l IH]; [reflexivity|].
    cbn [flat_map]. rewrite List.filter_app, IH.
    destruct notify, indicate; reflexivity. }
  destruct (filter_fanout_count (self s) notify indicate (elements (connections s)))
    as [Hn Hi].
  destruct (notify || indicate) eqn:Hflags.
  - rewrite Hw, Hn, Hi, Hlen. repeat split; reflexivity.
  - apply orb_false_elim in Hflags as [-> ->]. repeat split; reflexivity.
Qed.

(** ** The event callback, edge cases and composition *)

(** X4: a connect, disconnect or indicate-done event whose payload is not a
    three-element tuple raises ValueError at the unpacking and leaves the
    whole state, the connection set included, as it was; nothing is
    advertised. *)
Theorem irq_malformed_payload (event : Z) (data : list pyval) (s : state) :
  event = _IRQ_CENTRAL_CONNECT \/ event = _IRQ_CENTRAL_DISCONNECT
    \/ event = _IRQ_GATTS_INDICATE_DONE ->
  length data <> 3%nat ->
  _irq event data s = (Raise ValueError, s).
Proof.
  intros Hev Hlen.
  destruct data as [|a [|b [|c [|d l]]]]; try (exfalso; apply Hlen; reflexivity);
    destruct Hev as [-> | [-> | ->]]; reflexivity.
Qed.

Lemma irq_malformed_payload_witness :
  _irq _IRQ_CENTRAL_DISCONNECT [VInt 1] connected_state
    = (Raise ValueError, connected_state).
Proof.
  apply (irq_malformed_payload _IRQ_CENTRAL_DISCONNECT [VInt 1] connected_state).
  - right. left. reflexivity.
  - discriminate.
Defined.

(** What the callback can do to a state: nothing, add one handle, or remove
    one handle and advertise. *)
Lemma irq_cases (event : Z) (data : list pyval) (s : state) :
  snd (_irq event data s) = s \/
  (exists h, snd (_irq event data s)
             = snd (set_connections ({[h]} ∪ connections s) s)) \/
  (exists h, h ∈ connections s /\
             _irq event data s
             = (Return tt,
                log [GapAdvertise advertise_default_interval (_payload (self s))]
                  (snd (set_connections (connections s ∖ {[h]}) s)))).
Proof.
  unfold _irq.
  destruct (event =? _IRQ_CENTRAL_CONNECT);
    [|destruct (event =? _IRQ_CENTRAL_DISCONNECT);
      [|destruct (event =? _IRQ_GATTS_INDICATE_DONE)]];
    destruct data as [|a [|b [|c [|d l]]]]; try (left; reflexivity).
  - right. left. exists a. reflexivity.
  - destruct (decide (a ∈ connections s)) as [Hin|Hout].
    + right. right. exists a. split; [exact Hin|].
      change (_irq _IRQ_CENTRAL_DISCONNECT [a; b; c] s = (Return tt,
        log [GapAdvertise advertise_default_interval (_payload (self s))]
          (snd (set_connections (connections s ∖ {[a]}) s)))).
      rewrite irq_disconnect_present by exact Hin. reflexivity.
    + left.
      change (snd (_irq _IRQ_CENTRAL_DISCONNECT [a; b; c] s) = s).
      rewrite irq_disconnect_absent by exact Hout. reflexivity.
Qed.

(** X5: whatever the event and its payload, well formed or not, the callback
    leaves the attribute store, the four captured handles and the stored
    advertising payload as they were, and the only call it can make on the
    stack is a single advertise with the stored payload at the default
    interval of 500000 microseconds. *)
Theorem irq_frame (event : Z) (data : list pyval) (s : state) :
  let s' := snd (_irq event data s) in
  gatts_db (ble s') = gatts_db (ble s) /\
  handles (self s') = handles (self s) /\
  _payload (self s') = _payload (self s) /\
  (trace (ble s') = trace (ble s) \/
   trace (ble s') = trace (ble s) ++ [GapAdvertise 500000 (_payload (self s))]).
Proof.
  intros s'. unfold s'.
  destruct (irq_cases event data s) as [E|[[h E]|[h [_ E]]]]; rewrite E.
  - repeat split; try reflexivity. left. reflexivity.
  - repeat split; try reflexivity. left. reflexivity.
  - repeat split; try reflexivity. right. reflexivity.
Qed.

(** X6: for a handle that is not tracked, a connect event followed by a
    disconnect event for it both return normally, bring the connection set
    back to what it was, leave the attribute store alone and re-arm
    advertising exactly once. *)
Theorem connect_then_disconnect_restores (h t a t' a' : pyval) (s : state) :
  h ∉ connections s ->
  let m := _irq _IRQ_CENTRAL_CONNECT [h; t; a];;
           _irq _IRQ_CENTRAL_DISCONNECT [h; t'; a'] in
  fst (m s) = Return tt /\
  connections (snd (m s)) = connections s /\
  gatts_db (ble (snd (m s))) = gatts_db (ble s) /\
  effects_of m s = [GapAdvertise 500000 (_payload (self s))].
Proof.
  intros Hout m. unfold m.
  assert (E : (_irq _IRQ_CENTRAL_CONNECT [h; t; a];;
               _irq _IRQ_CENTRAL_DISCONNECT [h; t'; a']) s
              = (Return tt,
                 log [GapAdvertise advertise_default_interval (_payload (self s))]
                   (snd (set_connections (({[h]} ∪ connections s) ∖ {[h]}) s)))).
  { rewrite bind_run, irq_connect. cbn [set_connections snd].
    rewrite irq_disconnect_present; [reflexivity|].
    cbn [self _connections]. apply elem_of_union. left.
    apply elem_of_singleton. reflexivity. }
  unfold effects_of. rewrite E.
  cbn [fst snd log set_connections self ble trace gatts_db connections _connections].
  split; [reflexivity|]. split.
  - apply set_eq. intros x.
    rewrite elem_of_difference, elem_of_union, elem_of_singleton.
    split; [intros [[-> | Hx] Hne]; [contradiction|exact Hx]|].
    intros Hx. split; [right; exact Hx|]. intros ->. contradiction.
  - split; [reflexivity|]. rewrite drop_app_length. reflexivity.
Qed.

Lemma connect_then_disconnect_restores_witness :
  let m := _irq _IRQ_CENTRAL_CONNECT [VInt 5; VInt 0; VBytes [xaa]];;
           _irq _IRQ_CENTRAL_DISCONNECT [VInt 5; VInt 0; VBytes [xaa]] in
  fst (m connected_state) = Return tt /\
  connections (snd (m connected_state)) = connections connected_state /\
  gatts_db (ble (snd (m connected_state))) = gatts_db (ble connected_state) /\
  effects_of m connected_state = [GapAdvertise 500000 [x02; x01; x06]].
Proof.
  apply (connect_then_disconnect_restores (VInt 5) (VInt 0) (VBytes [xaa])
           (VInt 0) (VBytes [xaa]) connected_state).
  unfold connections, connected_state. simpl.
  rewrite elem_of_union, !elem_of_singleton.
  intros [H|H]; [discriminate H|]. revert H. apply not_elem_of_empty.
Defined.

(** X7: the number of tracked connections moves by exactly one: a connect
    event for an untracked handle raises it by one, a disconnect event for a
    tracked handle lowers it by one. *)
Theorem connection_count_steps (h t a : pyval) (s : state) :
  (h ∉ connections s ->
   size (connections (snd (_irq _IRQ_CENTRAL_CONNECT [h; t; a] s)))
   = S (size (connections s))) /\
  (h ∈ connections s ->
   S (size (connections (snd (_irq _IRQ_CENTRAL_DISCONNECT [h; t; a] s))))
   = size (connections s)).
Proof.
  split; intros Hh.
  - destruct (deliver_connect_connections h t a s) as [_ E].
    cbn [deliver] in E. rewrite E.
    rewrite size_union by (apply disjoint_singleton_l; exact Hh).
    rewrite size_singleton. reflexivity.
  - pose proof (deliver_disconnect_connections h t a s) as E.
    cbn [deliver] in E. rewrite E.
    rewrite size_difference by (apply singleton_subseteq_l; exact Hh).
    rewrite size_singleton.
    assert (size (connections s) <> 0)%nat.
    { intros H0. apply size_empty_inv in H0. apply (proj1 (H0 h)) in Hh.
      revert Hh. apply not_elem_of_empty. }
    lia.
Qed.

Lemma connection_count_steps_witness :
  size (connections (snd (_irq _IRQ_CENTRAL_CONNECT
                            [VInt 5; VInt 0; VBytes []] connected_state)))
  = S (size (connections connected_state)) /\
  S (size (connections (snd (_irq _IRQ_CENTRAL_DISCONNECT
                               [VInt 1; VInt 0; VBytes []] connected_state))))
  = size (connections connected_state).
Proof.
  split.
  - apply (connection_count_steps (VInt 5) (VInt 0) (VBytes []) connected_state).
    unfold connections, connected_state. simpl.
    rewrite elem_of_union, !elem_of_singleton.
    intros [H|H]; [discriminate H|]. revert H. apply not_elem_of_empty.
  - apply (connection_count_steps (VInt 1) (VInt 0) (VBytes []) connected_state).
    exact connected_state_tracks_1.
Defined.

(** X8: after a disconnect event for a handle, whether it returned or raised,
    the next [set_environment_data] sends nothing to that handle, whatever
    the flags; after a connect event for a handle, the next
    [set_environment_data] with notify set sends it the three notifications,
    temperature, pressure, humidity. *)
Theorem publish_follows_connection_events (h t a : pyval)
    (temp pressure humidity : Z) (notify indicate : bool) (s : state) :
  List.filter (sent_to h)
    (effects_of (set_environment_data temp pressure humidity notify indicate)
       (snd (_irq _IRQ_CENTRAL_DISCONNECT [h; t; a] s))) = [] /\
  List.filter (sent_to h)
    (effects_of (set_environment_data temp pressure humidity true false)
       (snd (_irq _IRQ_CENTRAL_CONNECT [h; t; a] s)))
  = [GattsNotify h (_temp_handle (self s));
     GattsNotify h (_pressure_handle (self s));
     GattsNotify h (_humidity_handle (self s))].
Proof.
  split.
  - rewrite publish_sent_to.
    pose proof (deliver_disconnect_connections h t a s) as E.
    cbn [deliver] in E. rewrite E.
    rewrite decide_False; [reflexivity|].
    rewrite elem_of_difference, elem_of_singleton. intros [_ Hne].
    apply Hne. reflexivity.
  - rewrite publish_sent_to.
    destruct (deliver_connect_connections h t a s) as [_ E].
    cbn [deliver] in E. rewrite E.
    rewrite decide_True
      by (apply elem_of_union; left; apply elem_of_singleton; reflexivity).
    reflexivity.
Qed.

(** ** The attribute store *)

(** X9: the store keeps no history: after two calls of [set_environment_data]
    in a row it is exactly what the second call alone would have left,
    whatever the flags of either call. *)
Theorem publish_overwrites (t1 p1 h1 t2 p2 h2 : Z) (n1 i1 n2 i2 : bool)
    (s : state) :
  gatts_db (ble (snd ((set_environment_data t1 p1 h1 n1 i1;;
                       set_environment_data t2 p2 h2 n2 i2) s)))
  = gatts_db (ble (snd (set_environment_data t2 p2 h2 n2 i2 s))).
Proof.
  rewrite bind_run. rewrite (set_environment_data_run t1 p1 h1 n1 i1 s).
  rewrite !set_environment_data_run. cbn [snd ble gatts_db self].
  apply map_eq. intros k.
  destruct (decide (_humidity_handle (self s) = k)) as [->|Hh];
    [rewrite !lookup_insert_eq; reflexivity|].
  rewrite !(lookup_insert_ne _ (_humidity_handle (self s))) by exact Hh.
  destruct (decide (_pressure_handle (self s) = k)) as [->|Hp];
    [rewrite !lookup_insert_eq; reflexivity|].
  rewrite !(lookup_insert_ne _ (_pressure_handle (self s))) by exact Hp.
  destruct (decide (_temp_handle (self s) = k)) as [->|Ht];
    [rewrite !lookup_insert_eq; reflexivity|].
  rewrite !(lookup_insert_ne _ (_temp_handle (self s))) by exact Ht.
  rewrite !(lookup_insert_ne _ (_humidity_handle (self s))) by exact Hh.
  rewrite !(lookup_insert_ne _ (_pressure_handle (self s))) by exact Hp.
  rewrite !(lookup_insert_ne _ (_temp_handle (self s))) by exact Ht.
  reflexivity.
Qed.

Lemma read_act_db (s : state) :
  gatts_db (ble (snd (read_act s)))
  = <[_string_handle (self s) := struct_pack_le_i 0]> (gatts_db (ble s)).
Proof. rewrite read_act_run. reflexivity. Qed.

(** X10: when the command characteristic has a handle of its own,
    [set_environment_data] leaves its buffer alone, so a pending command is
    acted on by the following [read_act] exactly as it would have been
    without the publication in between. *)
Theorem publish_keeps_pending_command (temp pressure humidity : Z)
    (notify indicate : bool) (s : state) :
  _string_handle (self s) <> _temp_handle (self s) ->
  _string_handle (self s) <> _pressure_handle (self s) ->
  _string_handle (self s) <> _humidity_handle (self s) ->
  let s' := snd (set_environment_data temp pressure humidity notify indicate s) in
  gatts_db (ble s') !! _string_handle (self s)
    = gatts_db (ble s) !! _string_handle (self s) /\
  effects_of read_act s' = effects_of read_act s.
Proof.
  intros Ht Hp Hh s'.
  assert (E : gatts_db (ble s') !! _string_handle (self s)
              = gatts_db (ble s) !! _string_handle (self s)).
  { unfold s'. rewrite set_environment_data_run. cbn [snd ble gatts_db].
    rewrite !lookup_insert_ne by congruence. reflexivity. }
  split; [exact E|].
  rewrite !read_act_effects.
  assert (Hself : self s' = self s)
    by (unfold s'; rewrite set_environment_data_run; reflexivity).
  rewrite Hself, E. reflexivity.
Qed.

Lemma publish_keeps_pending_command_witness :
  let s' := snd (set_environment_data 21 101325 45 true false
                   (command_state "blink")) in
  gatts_db (ble s') !! 16 = Some (bytes_utf8 "blink") /\
  effects_of read_act s' = effects_of read_act (command_state "blink").
Proof.
  apply (publish_keeps_pending_command 21 101325 45 true false
           (command_state "blink")); discriminate.
Defined.

(** X11: in the order the polling loop uses, [set_environment_data] followed
    by [read_act], and with four distinct attribute handles, nothing is
    raised, the three numeric characteristics still read back as the
    encodings of the values just written, and the command characteristic
    reads back as four zero bytes. *)
Theorem publish_then_read_act_store (temp pressure humidity : Z)
    (notify indicate : bool) (s : state) :
  NoDup [_temp_handle (self s); _pressure_handle (self s);
         _humidity_handle (self s); _string_handle (self s)] ->
  - 2 ^ 31 <= temp < 2 ^ 31 ->
  - 2 ^ 31 <= pressure < 2 ^ 31 ->
  - 2 ^ 31 <= humidity < 2 ^ 31 ->
  let m := set_environment_data temp pressure humidity notify indicate;;
           read_act in
  fst (m s) = Return tt /\
  reads_back_as (snd (m s)) (_temp_handle (self s)) temp /\
  reads_back_as (snd (m s)) (_pressure_handle (self s)) pressure /\
  reads_back_as (snd (m s)) (_humidity_handle (self s)) humidity /\
  fst (gatts_read (_string_handle (self s)) (snd (m s)))
    = Return [x00; x00; x00; x00].
Proof.
  intros Hnd Ht Hp Hh m. unfold m.
  apply NoDup_cons in Hnd as [Hn1 Hnd].
  apply NoDup_cons in Hnd as [Hn2 Hnd].
  apply NoDup_cons in Hnd as [Hn3 _].
  apply not_elem_of_cons in Hn1 as [Htp Hn1].
  apply not_elem_of_cons in Hn1 as [Hth Hn1].
  apply not_elem_of_cons in Hn1 as [Hts _].
  apply not_elem_of_cons in Hn2 as [Hph Hn2].
  apply not_elem_of_cons in Hn2 as [Hps _].
  apply not_elem_of_cons in Hn3 as [Hhs _].
  rewrite bind_run, set_environment_data_run, read_act_run.
  cbn [fst snd self ble gatts_db]. unfold int.
  split; [reflexivity|].
  repeat split; try (apply reads_back_packed; [assumption|]; cbn [ble gatts_db]).
  - rewrite !lookup_insert_ne by congruence. apply lookup_insert_eq.
  - rewrite !(lookup_insert_ne _ (_string_handle (self s))) by congruence.
    rewrite !lookup_insert_ne by congruence. apply lookup_insert_eq.
  - rewrite !(lookup_insert_ne _ (_string_handle (self s))) by congruence.
    apply lookup_insert_eq.
  - unfold gatts_read. cbn [fst ble gatts_db]. rewrite lookup_insert_eq.
    reflexivity.
Qed.

Lemma publish_then_read_act_store_witness :
  let m := set_environment_data (-5) 101325 45 false false;; read_act in
  fst (m (command_state "blink")) = Return tt /\
  reads_back_as (snd (m (command_state "blink"))) 10 (-5) /\
  reads_back_as (snd (m (command_state "blink"))) 12 101325 /\
  reads_back_as (snd (m (command_state "blink"))) 14 45 /\
  fst (gatts_read 16 (snd (m (command_state "blink"))))
    = Return [x00; x00; x00; x00].
Proof.
  apply (publish_then_read_act_store (-5) 101325 45 false false
           (command_state "blink")).
  - repeat (apply NoDup_cons; split;
            [rewrite ?not_elem_of_cons; repeat split;
             try discriminate; apply not_elem_of_nil|]).
    apply NoDup_nil. exact I.
  - vm_compute; split; (discriminate || reflexivity).
  - vm_compute; split; (discriminate || reflexivity).
  - vm_compute; split; (discriminate || reflexivity).
Defined.

(** X12: a command is consumed by the call that reads it: whatever the state,
    a [read_act] that directly follows another [read_act] only reads the
    characteristic and clears it again; it never touches the pin and never
    sleeps. *)
Theorem read_act_is_one_shot (s : state) :
  effects_of read_act (snd (read_act s))
  = [GattsRead (_string_handle (self s));
     GattsWrite (_string_handle (self s)) [x00; x00; x00; x00]].
Proof.
  rewrite read_act_effects.
  assert (Hself : self (snd (read_act s)) = self s)
    by (rewrite read_act_run; reflexivity).
  rewrite Hself, read_act_db, lookup_insert_eq. cbn [default].
  rewrite decide_False by (vm_compute; discriminate). reflexivity.
Qed.

(** ** Blinking *)

Lemma blink_log (p d : Z) (s : state) :
  blink p d s = (Return tt, log [PinOn p; SleepMs d; PinOff p; SleepMs d] s).
Proof.
  cbv [blink pin_on pin_off sleep_ms emit mbind M_bind log self ble gatts_db trace].
  rewrite <- !app_assoc. reflexivity.
Qed.

Lemma slept_app (es1 es2 : list effect) :
  slept (es1 ++ es2) = slept es1 + slept es2.
Proof.
  induction es1 as [|e es1 IH]; [reflexivity|].
  destruct e; cbn [app slept]; rewrite ?IH; lia.
Qed.

Lemma pin_level_app (p : Z) (es1 es2 : list effect) : forall before,
  pin_level p before (es1 ++ es2) = pin_level p (pin_level p before es1) es2.
Proof.
  induction es1 as [|e es1 IH]; intros before; [reflexivity|].
  destruct e; cbn [app pin_level]; apply IH.
Qed.

Lemma blinks_observed (p d : Z) {A : Type} (l : list A) :
  slept (flat_map (fun _ => [PinOn p; SleepMs d; PinOff p; SleepMs d]) l)
    = 2 * d * Z.of_nat (length l) /\
  forall before,
    pin_level p before
      (flat_map (fun _ => [PinOn p; SleepMs d; PinOff p; SleepMs d]) l)
    = match l with [] => before | _ => Some false end.
Proof.
  induction l as [|x l [IHs IHp]]; [split; [simpl; lia|reflexivity]|].
  split.
  - cbn [flat_map]. rewrite slept_app, IHs. cbn [slept length].
    rewrite Nat2Z.inj_succ. lia.
  - intros before. cbn [flat_map]. rewrite pin_level_app, IHp.
    cbn [pin_level]. rewrite !decide_True by reflexivity.
    destruct l; reflexivity.
Qed.

(** X13: [blink] called n times in a row on one pin never raises, touches
    neither the server object nor the attribute store, keeps the caller
    asleep for 2 x n x delay milliseconds in all, and, when n is at least one,
    leaves the pin off whatever its level was before. *)
Theorem blink_repeated (n : nat) (p d : Z) (before : option bool) (s : state) :
  let m := for_each (seq 0 n) (fun _ => blink p d) in
  fst (m s) = Return tt /\
  self (snd (m s)) = self s /\
  gatts_db (ble (snd (m s))) = gatts_db (ble s) /\
  slept (effects_of m s) = 2 * Z.of_nat n * d /\
  (n <> 0%nat -> pin_level p before (effects_of m s) = Some false).
Proof.
  intros m. unfold m, effects_of.
  rewrite (for_each_log _ (fun _ => [PinOn p; SleepMs d; PinOff p; SleepMs d]))
    by (intros x s'; apply blink_log).
  cbn [fst snd log self ble gatts_db trace]. rewrite drop_app_length.
  destruct (blinks_observed p d (seq 0 n)) as [Hs Hp].
  rewrite Hs, Hp, length_seq.
  repeat split; try reflexivity; [lia|].
  intros Hn. destruct n; [contradiction|reflexivity].
Qed.

Lemma blink_repeated_witness :
  let m := for_each (seq 0 3) (fun _ => blink 23 500) in
  pin_level 23 (Some true) (effects_of m sample_state) = Some false.
Proof.
  apply (blink_repeated 3 23 500 (Some true) sample_state). discriminate.
Defined.

(** X14: [read_act] blocks its caller for exactly 3000 milliseconds when the
    command characteristic holds the bytes of "blink", leaving pin 23 off, and
    does not sleep at all and leaves pin 23 at its level otherwise; no other
    pin is ever driven. *)
Theorem read_act_blocking_time (p : Z) (before : option bool) (s : state) :
  let value := default [] (gatts_db (ble s) !! _string_handle (self s)) in
  slept (effects_of read_act s)
    = (if decide (value = bytes_utf8 "blink") then 3000 else 0) /\
  pin_level p before (effects_of read_act s)
    = (if decide (value = bytes_utf8 "blink" /\ p = 23)
       then Some false else before).
Proof.
  intros value. unfold value. rewrite read_act_effects.
  destruct (decide (default [] (gatts_db (ble s) !! _string_handle (self s))
                    = bytes_utf8 "blink")) as [E|E].
  - split; [reflexivity|].
    cbn [app pulse pin_level].
    destruct (decide (23 = p)) as [<-|Hne].
    + rewrite decide_True by (split; [exact E|reflexivity]). reflexivity.
    + rewrite decide_False; [reflexivity|]. intros [_ Hp]. congruence.
  - split; [reflexivity|].
    rewrite decide_False; [reflexivity|]. intros [Hv _]. contradiction.
Qed.

(** ** More on the wire encoding *)

(** X15: within the signed 32-bit range the packing loses nothing: two values
    with the same four bytes are equal. *)
Theorem struct_pack_le_i_injective (x y : Z) :
  - 2 ^ 31 <= x < 2 ^ 31 ->
  - 2 ^ 31 <= y < 2 ^ 31 ->
  struct_pack_le_i x = struct_pack_le_i y ->
  x = y.
Proof.
  intros Hx Hy E.
  rewrite <- (int_from_bytes_struct_pack x Hx), <- (int_from_bytes_struct_pack y Hy).
  rewrite E. reflexivity.
Qed.

Lemma struct_pack_le_i_injective_witness :
  (- 2 ^ 31 <= -5 < 2 ^ 31) /\ -5 = 4 - 9.
Proof.
  assert (Hr : - 2 ^ 31 <= -5 < 2 ^ 31)
    by (vm_compute; split; (discriminate || reflexivity)).
  split; [exact Hr|].
  apply (struct_pack_le_i_injective (-5) (4 - 9) Hr Hr). reflexivity.
Defined.

(** ** Invariants over any sequence of operations *)

Lemma irq_step (event : Z) (data : list pyval) (s : state) :
  handles (self (snd (_irq event data s))) = handles (self s) /\
  _payload (self (snd (_irq event data s))) = _payload (self s) /\
  trace (ble (snd (_irq event data s)))
  = trace (ble s)
    ++ (if rearms (OpIrq event data) (fst (_irq event data s))
        then [GapAdvertise 500000 (_payload (self s))] else []).
Proof.
  unfold _irq, rearms.
  destruct (Z.eqb_spec event _IRQ_CENTRAL_CONNECT) as [->|H1].
  - destruct data as [|a [|b [|c [|d l]]]]; cbn; rewrite app_nil_r; auto.
  - destruct (Z.eqb_spec event _IRQ_CENTRAL_DISCONNECT) as [->|H2].
    + destruct data as [|a [|b [|c [|d l]]]];
        try (cbn; rewrite app_nil_r; auto; fail).
      destruct (decide (a ∈ connections s)) as [Hin|Hout].
      * pose proof (irq_disconnect_present a b c s Hin) as E.
        unfold _irq in E. cbn [Z.eqb _IRQ_CENTRAL_CONNECT
          _IRQ_CENTRAL_DISCONNECT Pos.eqb] in E. rewrite E.
        repeat split; reflexivity.
      * pose proof (irq_disconnect_absent a b c s Hout) as E.
        unfold _irq in E. cbn [Z.eqb _IRQ_CENTRAL_CONNECT
          _IRQ_CENTRAL_DISCONNECT Pos.eqb] in E. rewrite E.
        cbn. rewrite app_nil_r. auto.
    + destruct (event =? _IRQ_GATTS_INDICATE_DONE);
        destruct data as [|a [|b [|c [|d l]]]]; cbn; rewrite app_nil_r; auto.
Qed.

Lemma run_op_step (o : op) (s : state) :
  handles (self (snd (run_op o s))) = handles (self s) /\
  _payload (self (snd (run_op o s))) = _payload (self s) /\
  exists es,
    trace (ble (snd (run_op o s))) = trace (ble s) ++ es /\
    List.filter is_advertise es
    = if rearms o (fst (run_op o s))
      then [GapAdvertise 500000 (_payload (self s))] else [].
Proof.
  destruct o as [event data|temp pressure humidity notify indicate|];
    cbn [run_op].
  - destruct (irq_step event data s) as (Hh & Hp & Ht).
    split; [exact Hh|]. split; [exact Hp|].
    eexists. split; [exact Ht|].
    destruct (rearms (OpIrq event data) (fst (_irq event data s))); reflexivity.
  - split; [rewrite set_environment_data_run; reflexivity|].
    split; [rewrite set_environment_data_run; reflexivity|].
    eexists. split; [apply set_environment_data_trace|].
    rewrite set_environment_data_effects, List.filter_app.
    cbn [List.filter is_advertise app rearms].
    destruct (notify || indicate); [|reflexivity].
    induction (elements (connections s)) as [|c l IH]; [reflexivity|].
    cbn [flat_map]. rewrite List.filter_app, IH.
    destruct notify, indicate; reflexivity.
  - split; [rewrite read_act_run; reflexivity|].
    split; [rewrite read_act_run; reflexivity|].
    exists (effects_of read_act s).
    split; [rewrite read_act_effects, read_act_run; reflexivity|].
    rewrite read_act_effects.
    destruct (decide (default [] (gatts_db (ble s) !! _string_handle (self s))
                      = bytes_utf8 "blink")); reflexivity.
Qed.

Lemma run_ops_cons (o : op) (ops : list op) (s : state) :
  run_ops (o :: ops) s =
  (fst (run_op o s) :: fst (run_ops ops (snd (run_op o s))),
   snd (run_ops ops (snd (run_op o s)))).
Proof.
  simpl. destruct (run_op o s) as [r s1]. simpl.
  destruct (run_ops ops s1) as [rs s2]. reflexivity.
Qed.

(** X18: over any sequence of callback invocations, publications and command
    polls, in any order and with any arguments, raising or not, the four
    captured handles and the advertising payload never change; advertising is
    re-armed once for every disconnect event that returned normally and by
    nothing else; and every advertise call carries the payload stored at the
    start and the default interval. *)
Theorem run_ops_invariants (ops : list op) (s : state) :
  let s' := snd (run_ops ops s) in
  handles (self s') = handles (self s) /\
  _payload (self s') = _payload (self s) /\
  exists es,
    trace (ble s') = trace (ble s) ++ es /\
    List.filter is_advertise es
    = replicate (count_rearms ops (fst (run_ops ops s)))
        (GapAdvertise 500000 (_payload (self s))).
Proof.
  revert s. induction ops as [|o ops IH]; intros s s'; unfold s'.
  - cbn. split; [reflexivity|]. split; [reflexivity|].
    exists []. rewrite app_nil_r. split; reflexivity.
  - rewrite run_ops_cons. cbn [fst snd count_rearms].
    destruct (run_op_step o s) as (Hh1 & Hp1 & es1 & Ht1 & Ha1).
    destruct (IH (snd (run_op o s))) as (Hh2 & Hp2 & es2 & Ht2 & Ha2).
    split; [congruence|]. split; [congruence|].
    exists (es1 ++ es2). split.
    + rewrite Ht2, Ht1, app_assoc. reflexivity.
    + rewrite List.filter_app, Ha1, Ha2, Hp1.
      destruct (rearms o (fst (run_op o s))); reflexivity.
Qed.

(** ** From construction to notification *)

Lemma replay_handles (evs : list central_event) : forall s,
  handles (self (snd (replay evs s))) = handles (self s).
Proof.
  induction evs as [|e evs IH]; intros s; [reflexivity|].
  rewrite replay_cons. cbn [snd]. rewrite IH.
  destruct e; apply irq_handles.
Qed.

(** X19: a server constructed on handles t, p, h and a command handle, fed
    any sequence of connect and disconnect events in which connects and
    disconnects alternate per handle, and then asked to publish with notify
    set: no event raises, and a connection handle receives the three
    notifications, on t, p and h in this order, exactly when it has had more
    connects than disconnects; any other handle receives nothing. *)
Theorem notified_after_construction
    (advertising_payload : string -> list Z -> Z -> list byte)
    (t p h sh : Z) (name : string) (w : world)
    (evs : list central_event) (temp pressure humidity : Z) (c : pyval) :
  alternating evs = true ->
  exists s0,
    snd (__init__ advertising_payload [[t; p; h; sh]] name w) = Return s0 /\
    Forall returned (fst (replay evs s0)) /\
    List.filter (sent_to c)
      (effects_of (set_environment_data temp pressure humidity true false)
         (snd (replay evs s0)))
    = if decide (count_disconnects c evs < count_connects c evs)%nat
      then [GattsNotify c t; GattsNotify c p; GattsNotify c h]
      else [].
Proof.
  intros Halt. eexists. split; [reflexivity|].
  match goal with |- Forall returned (fst (replay evs ?s)) /\ _ => set (s0 := s) end.
  assert (Hinv : counts_agree [] s0).
  { intros k. simpl. split; [|reflexivity].
    intros Hk. exfalso. revert Hk. apply not_elem_of_empty. }
  destruct (replay_alternating_after evs [] s0 Hinv Halt) as [Hok Hfin].
  split; [exact Hok|].
  rewrite publish_sent_to.
  pose proof (replay_handles evs s0) as Hh.
  unfold handles in Hh. cbn [s0 self _temp_handle _pressure_handle
    _humidity_handle _string_handle] in Hh.
  injection Hh as Ht Hp Hhu _.
  simpl in Hfin. destruct (Hfin c) as [Hin Hout].
  destruct (decide (c ∈ connections (snd (replay evs s0)))) as [Hc|Hc].
  - specialize (Hin Hc). rewrite decide_True by lia.
    unfold fanout. cbn [app]. rewrite Ht, Hp, Hhu. reflexivity.
  - specialize (Hout Hc). rewrite decide_False by lia. reflexivity.
Qed.

Lemma notified_after_construction_witness :
  let evs := [Connect (VInt 1) (VInt 0) (VBytes [xaa]);
              Connect (VInt 2) (VInt 1) (VBytes [xbb]);
              Disconnect (VInt 1) (VInt 0) (VBytes [xaa])] in
  exists s0,
    snd (__init__ (fun _ _ _ => [x02; x01; x06]) [[10; 12; 14; 16]] default_name
           {| gatts_db := ∅; trace := [] |}) = Return s0 /\
    Forall returned (fst (replay evs s0)) /\
    List.filter (sent_to (VInt 2))
      (effects_of (set_environment_data 21 101325 45 true false)
         (snd (replay evs s0)))
    = [GattsNotify (VInt 2) 10; GattsNotify (VInt 2) 12; GattsNotify (VInt 2) 14].
Proof.
  intros evs.
  apply (notified_after_construction (fun _ _ _ => [x02; x01; x06]) 10 12 14 16
           default_name {| gatts_db := ∅; trace := [] |} evs 21 101325 45 (VInt 2)).
  reflexivity.
Defined.
